(** * The 1.6 upgrade script (deployment/7_upgrade_1_6.js)

    A shallow embedding of the [deploy] procedure: the module-set
    arithmetic of the upgrader loop as list functions, and the sequence of
    calls against the external collaborators as a state-and-exception
    monad over a log of calls. *)

From stdpp Require Import gmap strings list fin_maps pretty.
From Stdlib Require Import ZArith Ascii.

Local Open Scope string_scope.
Local Open Scope Z_scope.
Local Open Scope list_scope.

(** ** Data model *)

(** A module descriptor [{ name, address }] of a version manifest. *)
Record ModuleDesc := { name : string; address : string }.

#[global] Instance ModuleDesc_eq_dec : EqDecision ModuleDesc.
Proof. solve_decision. Defined.

(** A published version manifest, as [versionUploader.load] hands it out. *)
Record Version := {
  version : string;
  createdAt : Z;
  modules : list ModuleDesc;
  fingerprint : string
}.

#[global] Instance Version_eq_dec : EqDecision Version.
Proof. solve_decision. Defined.

(** What [deployer.deploy] and [deployer.wrapDeployedContract] return; the
    script reads [contractAddress] and [_contract.contractName] only. *)
Record Wrapper := { contractAddress : string; contractName : string }.

#[global] Instance Wrapper_eq_dec : EqDecision Wrapper.
Proof. solve_decision. Defined.

(** ** Constants of the script (lines 18-22) *)

Definition TARGET_VERSION : string := "1.6.0".
Definition MODULES_TO_ENABLE : list string :=
  ["ApprovedTransfer"; "RecoveryManager"; "MakerV2Manager"; "TransferManager"].
Definition MODULES_TO_DISABLE : list string := ["UniswapManager"].
Definition BACKWARD_COMPATIBILITY : nat := 1.

(** ** The module-set arithmetic of the upgrader loop (lines 167-186) *)

(** [{ address: wrapper.contractAddress, name: wrapper._contract.contractName }] *)
Definition moduleOfWrapper (wrapper : Wrapper) : ModuleDesc :=
  {| name := contractName wrapper; address := contractAddress wrapper |}.

Section FirstVersion.
(** The two name lists are constants of the script; the section keeps them
    abstract so that the same code can be run on other lists. *)
Variables (toDisable toEnable : list string).

Definition moduleNamesToRemove : list string := toDisable ++ toEnable.

(** line 169 *)
Definition firstToRemove (v : Version) : list ModuleDesc :=
  filter (λ module, name module ∈ moduleNamesToRemove) (modules v).

(** lines 170-173 *)
Definition firstToAdd (newModuleWrappers : list Wrapper) : list ModuleDesc :=
  moduleOfWrapper <$> newModuleWrappers.

(** line 174 *)
Definition toKeep (v : Version) : list ModuleDesc :=
  filter (λ module, name module ∉ moduleNamesToRemove) (modules v).

(** line 175 *)
Definition modulesInNewVersion (v : Version) (newModuleWrappers : list Wrapper)
  : list ModuleDesc :=
  toKeep v ++ firstToAdd newModuleWrappers.
End FirstVersion.

(** line 183: modules of the target that are not (by address) in [v]. *)
Definition olderToAdd (target : list ModuleDesc) (v : Version) : list ModuleDesc :=
  filter (λ module, address module ∉ (address <$> modules v)) target.

(** line 185: modules of [v] that are not (by address) in the target. *)
Definition olderToRemove (target : list ModuleDesc) (v : Version) : list ModuleDesc :=
  filter (λ module, address module ∉ (address <$> target)) (modules v).

(** ** JavaScript values that flow through the script *)

Inductive Value :=
| VUndefined
| VNull
| VBool (b : bool)
| VNum (n : Z)
| VStr (s : string)
| VAddrs (l : list string)
| VModules (l : list ModuleDesc).

#[global] Instance Value_eq_dec : EqDecision Value.
Proof. solve_decision. Defined.

Definition truthy (v : Value) : bool :=
  match v with
  | VUndefined | VNull => false
  | VBool b => b
  | VNum n => negb (n =? 0)
  | VStr s => negb (String.eqb s EmptyString)
  | VAddrs _ | VModules _ => true
  end.

(** [a || b] *)
Definition jsOr (a b : Value) : Value := if truthy a then a else b.

(** [o.k]: reading a property that is not there gives [undefined]. *)
Definition prop (o : gmap string Value) (k : string) : Value :=
  default VUndefined (o !! k).

(** The configuration object [configurator.config]; the script reads
    [config.contracts], [config.modules], [config.settings],
    [config.defi.maker], [config.defi.uniswap] and [config.multisig]. *)
Record Config := {
  cfg_contracts : gmap string Value;
  cfg_modules : gmap string Value;
  cfg_settings : gmap string Value;
  cfg_maker : gmap string Value;
  cfg_uniswap : gmap string Value;
  cfg_multisig : gmap string Value;
  cfg_gitHash : Value
}.

#[global] Instance Config_eq_dec : EqDecision Config.
Proof. solve_decision. Defined.

Definition noConfig : Config :=
  {| cfg_contracts := ∅; cfg_modules := ∅; cfg_settings := ∅; cfg_maker := ∅;
     cfg_uniswap := ∅; cfg_multisig := ∅; cfg_gitHash := VUndefined |}.

(** Modelled from the spec: the configurator (utils/configurator.js is not
    among the sources) "exposes update operations for module/infrastructure
    addresses and a revision-hash stamp"; the three updates write the given
    entries over the ones the object has and leave the rest alone. *)
Definition updateModuleAddresses (entries : gmap string Value) (c : Config) : Config :=
  {| cfg_contracts := cfg_contracts c; cfg_modules := entries ∪ cfg_modules c;
     cfg_settings := cfg_settings c; cfg_maker := cfg_maker c;
     cfg_uniswap := cfg_uniswap c; cfg_multisig := cfg_multisig c;
     cfg_gitHash := cfg_gitHash c |}.

(** Modelled from the spec: the configurator's update of the infrastructure
    addresses, as [updateModuleAddresses] on [config.contracts]. *)
Definition updateInfrastructureAddresses (entries : gmap string Value) (c : Config) : Config :=
  {| cfg_contracts := entries ∪ cfg_contracts c; cfg_modules := cfg_modules c;
     cfg_settings := cfg_settings c; cfg_maker := cfg_maker c;
     cfg_uniswap := cfg_uniswap c; cfg_multisig := cfg_multisig c;
     cfg_gitHash := cfg_gitHash c |}.

(** Modelled from the spec: the configurator's revision-hash stamp. *)
Definition updateGitHash (gitHash : string) (c : Config) : Config :=
  {| cfg_contracts := cfg_contracts c; cfg_modules := cfg_modules c;
     cfg_settings := cfg_settings c; cfg_maker := cfg_maker c;
     cfg_uniswap := cfg_uniswap c; cfg_multisig := cfg_multisig c;
     cfg_gitHash := VStr gitHash |}.

(** The build artifacts the script requires (lines 3-14). *)
Inductive Artifact :=
| ApprovedTransfer | RecoveryManager | MultiSig | ModuleRegistry | Upgrader
| TokenPriceProvider | MakerRegistry | ScdMcdMigration | MakerV2Manager
| TransferManager.

#[global] Instance Artifact_eq_dec : EqDecision Artifact.
Proof. solve_decision. Defined.

(** [new MultisigExecutor(MultiSigWrapper, deploymentWallet, autosign, { gasPrice })] *)
Record MultisigExecutor := {
  ex_multisig : Wrapper;
  ex_wallet : Value;
  ex_autosign : Value;
  ex_gasPrice : Value
}.

#[global] Instance MultisigExecutor_eq_dec : EqDecision MultisigExecutor.
Proof. solve_decision. Defined.

(** ** The log of calls *)

(** One constructor per kind of call the script makes on a collaborator,
    with the arguments it passes. *)
Inductive Event :=
| ConsoleWarn (msg : string)
| ManagerSetup (network : string)
| WrapDeployedContract (a : Artifact) (addr : Value)
| Deploy (a : Artifact) (args : list Value)
| ViewCall (target : Wrapper) (method : string)
| SendTransaction (target : Wrapper) (method : string) (args : list Value)
| WaitForTransaction (target : Wrapper) (tx : string) (msg : string)
| UpdateModuleAddresses (entries : gmap string Value)
| UpdateInfrastructureAddresses (entries : gmap string Value)
| ExecSync (cmd : string)
| UpdateGitHash (gitHash : string)
| SaveConfig (c : Config)
| AbiUploads (uploads : list (Wrapper * string))
| ExecuteCall (by_ : MultisigExecutor) (target : Wrapper) (method : string)
    (args : list Value)
| LoadVersions (n : nat)
| UploadVersion (manifest : gmap string Value).

#[global] Instance Event_eq_dec : EqDecision Event.
Proof. solve_decision. Defined.

(** What [manager.setup()] makes available (lines 41-47). *)
Record Manager := {
  configuration : Config;
  gasPrice : Value;
  deploymentWallet : Value
}.

#[global] Instance Manager_eq_dec : EqDecision Manager.
Proof. solve_decision. Defined.

(** What a call hands back to the script. *)
Inductive Answer :=
| AUnit
| AManager (m : Manager)
| AWrapper (w : Wrapper)
| AString (s : string)
| AVersions (l : list Version).

#[global] Instance Answer_eq_dec : EqDecision Answer.
Proof. solve_decision. Defined.

Inductive result (A : Type) :=
| Ok (a : A)
| Err (reason : string).
Arguments Ok {A} a.
Arguments Err {A} reason.

#[global] Instance result_eq_dec `{EqDecision A} : EqDecision (result A).
Proof. solve_decision. Defined.

(** A logged call with its outcome: the answer, or the reason it was
    rejected with. *)
Record Entry := { event : Event; outcome : result Answer }.

#[global] Instance Entry_eq_dec : EqDecision Entry.
Proof. solve_decision. Defined.

Definition succeeded (e : Entry) : Prop := ∃ a, outcome e = Ok a.

(** ** The collaborators *)

(** The external collaborators: every call is answered by the world, and
    the answer may depend on how many calls were made before ([nat]). *)
Record World := {
  w_setup : nat → string → result Manager;
  w_wrapDeployedContract : nat → Artifact → Value → result Wrapper;
  w_deploy : nat → Artifact → list Value → result Wrapper;
  w_view : nat → Wrapper → string → result string;
  w_send : nat → Wrapper → string → list Value → result string;
  w_waitForTransaction : nat → Wrapper → string → string → result unit;
  w_execSync : nat → string → result string;
  w_save : nat → Config → result unit;
  w_abiUploads : nat → list (Wrapper * string) → result unit;
  w_executeCall : nat → MultisigExecutor → Wrapper → string → list Value → result unit;
  w_load : nat → nat → result (list Version);
  w_upload : nat → gmap string Value → result unit;
  w_now : nat → Z
}.

(** Modelled from the spec: utils/utilities.js is not among the sources.
    [versionFingerprint] is "a deterministic function of the (name, address)
    pairs in modules, order-independent or order-defined per the hashing
    convention chosen": a function of the module list, nothing more is
    fixed. [asciiToBytes32] encodes a name for the registry. *)
Record Utilities := {
  versionFingerprint : list ModuleDesc → string;
  asciiToBytes32 : string → string
}.

(** The semver package: [lt] throws a [TypeError] on a string that is not
    a version ([None]), with the message [semver_lt_error] gives for those
    arguments; [inc] answers [null] on one ([None]). *)
Record Semver := {
  semver_lt : string → string → option bool;
  semver_lt_error : string → string → string;
  semver_inc : string → string → option string
}.

(** ** The monad of the script: a log of calls, the shared configuration
    object and exceptions *)

Inductive Failure :=
| Rejected (reason : string)
| TypeError (msg : string).

Inductive Completion (A : Type) :=
| Returns (a : A)
| Throws (f : Failure).
Arguments Returns {A} a.
Arguments Throws {A} f.

(** What the script and its collaborators share: the number of calls made
    so far, the configuration object (one object, updated in place), and
    what [configurator.save()] wrote last. *)
Record Store := {
  clock : nat;
  config : Config;
  persisted : option Config
}.

Definition initial : Store :=
  {| clock := 0; config := noConfig; persisted := None |}.

(** A computation appends to the log, changes the store, and returns or
    throws. *)
Definition M (A : Type) : Type := Store → list Entry * Store * Completion A.

Definition ret {A} (a : A) : M A := λ s, ([], s, Returns a).

Definition bind {A B} (m : M A) (k : A → M B) : M B := λ s,
  match m s with
  | (evs, s', Returns a) =>
      match k a s' with (evs', s'', r) => ((evs ++ evs')%list, s'', r) end
  | (evs, s', Throws f) => (evs, s', Throws f)
  end.

#[global] Instance M_ret : MRet M := @ret.
#[global] Instance M_bind : MBind M := λ A B k m, bind m k.

Definition throw {A} (f : Failure) : M A := λ s, ([], s, Throws f).

Definition tick (s : Store) : Store :=
  {| clock := S (clock s); config := config s; persisted := persisted s |}.

(** A call on a collaborator that can fail: it is logged with its outcome,
    and a failure is thrown. *)
Definition remote {A} (inj : A → Answer) (ev : Event) (answer : nat → result A)
  : M A := λ s,
  match answer (clock s) with
  | Ok a => ([{| event := ev; outcome := Ok (inj a) |}], tick s, Returns a)
  | Err e => ([{| event := ev; outcome := Err e |}], tick s, Throws (Rejected e))
  end.

(** A synchronous call that does not fail. *)
Definition notify (ev : Event) : M unit := λ s,
  ([{| event := ev; outcome := Ok AUnit |}], s, Returns tt).

Definition getConfig : M Config := λ s, ([], s, Returns (config s)).

Definition modifyConfig (f : Config → Config) : M unit := λ s,
  ([], {| clock := clock s; config := f (config s); persisted := persisted s |},
   Returns tt).

Definition setPersisted (c : Config) : M unit := λ s,
  ([], {| clock := clock s; config := config s; persisted := Some c |}, Returns tt).

Definition getClock : M nat := λ s, ([], s, Returns (clock s)).

Fixpoint forEach {A} (l : list A) (body : A → M unit) : M unit :=
  match l with
  | [] => ret tt
  | x :: rest => body x ;; forEach rest body
  end.

(** [replace(/\n$/, '')]: drops one line feed at the very end. *)
Fixpoint stripTrailingNewline (s : string) : string :=
  match s with
  | EmptyString => EmptyString
  | String c EmptyString => if Ascii.eqb c "010"%char then EmptyString else s
  | String c rest => String c (stripTrailingNewline rest)
  end.

(** What the setup phase leaves in scope (lines 41-51). *)
Record Context := {
  ctx_gasPrice : Value;
  ModuleRegistryWrapper : Wrapper;
  MultiSigWrapper : Wrapper;
  multisigExecutor : MultisigExecutor
}.

(** The wrappers of the infrastructure phase (lines 57-66). *)
Record Infrastructure := {
  MakerRegistryWrapper : Wrapper;
  TokenPriceProviderWrapper : Wrapper
}.

(** The four module wrappers, in the order they are pushed (lines 72-117). *)
Record NewModules := {
  ApprovedTransferWrapper : Wrapper;
  RecoveryManagerWrapper : Wrapper;
  MakerV2ManagerWrapper : Wrapper;
  TransferManagerWrapper : Wrapper
}.

Definition newModuleWrappers (m : NewModules) : list Wrapper :=
  [ApprovedTransferWrapper m; RecoveryManagerWrapper m; MakerV2ManagerWrapper m;
   TransferManagerWrapper m].

(** The variables the upgrader loop assigns: [newVersion] (an object that
    starts as [{}]) and [fingerprint] (declared without a value). *)
Record LoopVars := {
  newVersion : gmap string Value;
  targetFingerprint : option string
}.

(** A template literal prints a variable without a value as "undefined". *)
Definition interpolate (s : option string) : string := default "undefined" s.

Definition dashes : string :=
  "------------------------------------------------------------------------".

Section Script.
Variables (W : World) (U : Utilities) (SV : Semver).

(** *** The calls on the collaborators *)

Definition wrapDeployedContract (a : Artifact) (addr : Value) : M Wrapper :=
  remote AWrapper (WrapDeployedContract a addr)
         (λ t, w_wrapDeployedContract W t a addr).

Definition deployContract (a : Artifact) (args : list Value) : M Wrapper :=
  remote AWrapper (Deploy a args) (λ t, w_deploy W t a args).

Definition viewCall (target : Wrapper) (method : string) : M string :=
  remote AString (ViewCall target method) (λ t, w_view W t target method).

Definition sendTransaction (target : Wrapper) (method : string) (args : list Value)
  : M string :=
  remote AString (SendTransaction target method args)
         (λ t, w_send W t target method args).

Definition verboseWaitForTransaction (target : Wrapper) (tx msg : string) : M unit :=
  remote (λ _, AUnit) (WaitForTransaction target tx msg)
         (λ t, w_waitForTransaction W t target tx msg).

Definition executeCall (ex : MultisigExecutor) (target : Wrapper) (method : string)
    (args : list Value) : M unit :=
  remote (λ _, AUnit) (ExecuteCall ex target method args)
         (λ t, w_executeCall W t ex target method args).

(** [configurator.save()] (line 136): what is written is the object as
    it is at the time of the call. *)
Definition configuratorSave : M unit :=
  c ← getConfig;
  remote (λ _, AUnit) (SaveConfig c) (λ t, w_save W t c) ;;
  setPersisted c.

(** *** Lines 25-29 *)
Definition warnIfUnsupported (network : string) : M unit :=
  if decide (network ∈ ["kovan"; "kovan-fork"; "staging"; "prod"]) then ret tt
  else
    notify (ConsoleWarn dashes) ;;
    notify (ConsoleWarn
      ("WARNING: The MakerManagerV2 module is not fully functional on " +:+ network)) ;;
    notify (ConsoleWarn dashes).

(** *** Setup (lines 38-51) *)
Definition setup (network : string) : M Context :=
  manager ← remote AManager (ManagerSetup network) (λ t, w_setup W t network);
  modifyConfig (λ _, configuration manager) ;;
  config ← getConfig;
  ModuleRegistryWrapper ←
    wrapDeployedContract ModuleRegistry (prop (cfg_contracts config) "ModuleRegistry");
  MultiSigWrapper ←
    wrapDeployedContract MultiSig (prop (cfg_contracts config) "MultiSigWallet");
  ret {| ctx_gasPrice := gasPrice manager;
         ModuleRegistryWrapper := ModuleRegistryWrapper;
         MultiSigWrapper := MultiSigWrapper;
         multisigExecutor :=
           {| ex_multisig := MultiSigWrapper;
              ex_wallet := deploymentWallet manager;
              ex_autosign := prop (cfg_multisig config) "autosign";
              ex_gasPrice := gasPrice manager |} |}.

(** *** Deploy infrastructure contracts (lines 57-66) *)
Definition deployInfrastructure (ctx : Context) : M Infrastructure :=
  config ← getConfig;
  ScdMcdMigrationWrapper ←
    wrapDeployedContract ScdMcdMigration (prop (cfg_maker config) "migration");
  vatAddress ← viewCall ScdMcdMigrationWrapper "vat";
  MakerRegistryWrapper ← deployContract MakerRegistry [VStr vatAddress];
  wethJoinAddress ← viewCall ScdMcdMigrationWrapper "wethJoin";
  addCollateralTransaction ←
    sendTransaction MakerRegistryWrapper "addCollateral"
      [VStr wethJoinAddress; ctx_gasPrice ctx];
  verboseWaitForTransaction MakerRegistryWrapper addCollateralTransaction
    ("Adding join adapter " +:+ wethJoinAddress +:+ " to the MakerRegistry") ;;
  config ← getConfig;
  changeMakerRegistryOwnerTx ←
    sendTransaction MakerRegistryWrapper "changeOwner"
      [prop (cfg_contracts config) "MultiSigWallet"; ctx_gasPrice ctx];
  verboseWaitForTransaction MakerRegistryWrapper changeMakerRegistryOwnerTx
    "Set the MultiSig as the owner of the MakerRegistry" ;;
  config ← getConfig;
  TokenPriceProviderWrapper ←
    wrapDeployedContract TokenPriceProvider
      (prop (cfg_contracts config) "TokenPriceProvider");
  ret {| MakerRegistryWrapper := MakerRegistryWrapper;
         TokenPriceProviderWrapper := TokenPriceProviderWrapper |}.

(** *** Deploy new modules (lines 72-117) *)
Definition deployModules (network : string) (infra : Infrastructure) : M NewModules :=
  config ← getConfig;
  ApprovedTransferWrapper ←
    deployContract ApprovedTransfer
      [prop (cfg_contracts config) "ModuleRegistry";
       prop (cfg_modules config) "GuardianStorage"];
  config ← getConfig;
  RecoveryManagerWrapper ←
    deployContract RecoveryManager
      [prop (cfg_contracts config) "ModuleRegistry";
       prop (cfg_modules config) "GuardianStorage";
       jsOr (prop (cfg_settings config) "recoveryPeriod") (VNum 0);
       jsOr (prop (cfg_settings config) "lockPeriod") (VNum 0);
       jsOr (prop (cfg_settings config) "securityPeriod") (VNum 0);
       jsOr (prop (cfg_settings config) "securityWindow") (VNum 0)];
  config ← getConfig;
  MakerV2ManagerWrapper ←
    deployContract MakerV2Manager
      [prop (cfg_contracts config) "ModuleRegistry";
       prop (cfg_modules config) "GuardianStorage";
       prop (cfg_maker config) "migration";
       prop (cfg_maker config) "pot";
       prop (cfg_maker config) "jug";
       VStr (contractAddress (MakerRegistryWrapper infra));
       prop (cfg_uniswap config) "factory"];
  config ← getConfig;
  TransferManagerWrapper ←
    deployContract TransferManager
      [prop (cfg_contracts config) "ModuleRegistry";
       prop (cfg_modules config) "TransferStorage";
       prop (cfg_modules config) "GuardianStorage";
       VStr (contractAddress (TokenPriceProviderWrapper infra));
       jsOr (prop (cfg_settings config) "securityPeriod") (VNum 0);
       jsOr (prop (cfg_settings config) "securityWindow") (VNum 0);
       jsOr (prop (cfg_settings config) "defaultLimit") (VStr "1000000000000000000");
       if decide (network ∈ ["test"; "staging"; "prod"])
       then prop (cfg_modules config) "TransferManager"
       else VStr "0x0000000000000000000000000000000000000000"];
  ret {| ApprovedTransferWrapper := ApprovedTransferWrapper;
         RecoveryManagerWrapper := RecoveryManagerWrapper;
         MakerV2ManagerWrapper := MakerV2ManagerWrapper;
         TransferManagerWrapper := TransferManagerWrapper |}.

(** *** Update config (lines 123-135) *)
Definition newModuleAddresses (m : NewModules) : gmap string Value :=
  <["ApprovedTransfer" := VStr (contractAddress (ApprovedTransferWrapper m))]>
  (<["RecoveryManager" := VStr (contractAddress (RecoveryManagerWrapper m))]>
  (<["MakerV2Manager" := VStr (contractAddress (MakerV2ManagerWrapper m))]>
  (<["TransferManager" := VStr (contractAddress (TransferManagerWrapper m))]> ∅))).

Definition newInfrastructureAddresses (infra : Infrastructure) : gmap string Value :=
  <["MakerRegistry" := VStr (contractAddress (MakerRegistryWrapper infra))]> ∅.

Definition updateConfig (infra : Infrastructure) (m : NewModules) : M unit :=
  notify (UpdateModuleAddresses (newModuleAddresses m)) ;;
  modifyConfig (updateModuleAddresses (newModuleAddresses m)) ;;
  notify (UpdateInfrastructureAddresses (newInfrastructureAddresses infra)) ;;
  modifyConfig (updateInfrastructureAddresses (newInfrastructureAddresses infra)) ;;
  out ← remote AString (ExecSync "git rev-parse HEAD")
               (λ t, w_execSync W t "git rev-parse HEAD");
  let gitHash := stripTrailingNewline out in
  notify (UpdateGitHash gitHash) ;;
  modifyConfig (updateGitHash gitHash).

(** *** Upload ABIs (lines 138-144): the five uploads are issued together
    and awaited as one. *)
Definition abiUploads (infra : Infrastructure) (m : NewModules)
  : list (Wrapper * string) :=
  [(ApprovedTransferWrapper m, "modules"); (RecoveryManagerWrapper m, "modules");
   (MakerV2ManagerWrapper m, "modules"); (TransferManagerWrapper m, "modules");
   (MakerRegistryWrapper infra, "contracts")].

Definition uploadAbis (infra : Infrastructure) (m : NewModules) : M unit :=
  remote (λ _, AUnit) (AbiUploads (abiUploads infra m))
         (λ t, w_abiUploads W t (abiUploads infra m)).

(** *** Register new modules (lines 150-154) *)
Definition registerModules (ctx : Context) (m : NewModules) : M unit :=
  forEach (newModuleWrappers m) (λ wrapper,
    executeCall (multisigExecutor ctx) (ModuleRegistryWrapper ctx) "registerModule"
      [VStr (contractAddress wrapper);
       VStr (asciiToBytes32 U (contractName wrapper))]).

(** *** Deploy and register upgraders (lines 161-202) *)

(** The branch [idx === 0] (lines 168-180). *)
Definition firstBranch (v : Version) (m : NewModules) (vars : LoopVars)
  : M (list ModuleDesc * list ModuleDesc * LoopVars) :=
  let toRemove := firstToRemove MODULES_TO_DISABLE MODULES_TO_ENABLE v in
  let toAdd := firstToAdd (newModuleWrappers m) in
  let inNewVersion :=
    modulesInNewVersion MODULES_TO_DISABLE MODULES_TO_ENABLE v (newModuleWrappers m) in
  let fp := versionFingerprint U inNewVersion in
  match semver_lt SV (version v) TARGET_VERSION with
  | None => throw (TypeError (semver_lt_error SV (version v) TARGET_VERSION))
  | Some lower =>
      let newer :=
        if lower then VStr TARGET_VERSION
        else from_option VStr VNull (semver_inc SV (version v) "patch") in
      t ← getClock;
      ret (toAdd, toRemove,
           {| newVersion :=
                <["fingerprint" := VStr fp]>
                (<["modules" := VModules inNewVersion]>
                (<["createdAt" := VNum (w_now W t / 1000)]>
                (<["version" := newer]> (newVersion vars))));
              targetFingerprint := Some fp |})
  end.

(** The branch [idx > 0] (lines 182-185). *)
Definition olderBranch (v : Version) (vars : LoopVars)
  : M (list ModuleDesc * list ModuleDesc * LoopVars) :=
  match newVersion vars !! "modules" with
  | Some (VModules target) =>
      ret (olderToAdd target v, olderToRemove target v, vars)
  | _ => throw (TypeError "newVersion.modules.filter is not a function")
  end.

(** Lines 188-201. *)
Definition deployUpgrader (ctx : Context) (v : Version)
    (toAdd toRemove : list ModuleDesc) (vars : LoopVars) : M unit :=
  let upgraderName := fingerprint v +:+ "_" +:+ interpolate (targetFingerprint vars) in
  config ← getConfig;
  UpgraderWrapper ←
    deployContract Upgrader
      [prop (cfg_contracts config) "ModuleRegistry";
       VAddrs (address <$> toRemove);
       VAddrs (address <$> toAdd)];
  executeCall (multisigExecutor ctx) (ModuleRegistryWrapper ctx) "registerModule"
    [VStr (contractAddress UpgraderWrapper); VStr (asciiToBytes32 U upgraderName)] ;;
  executeCall (multisigExecutor ctx) (ModuleRegistryWrapper ctx) "registerUpgrader"
    [VStr (contractAddress UpgraderWrapper); VStr (asciiToBytes32 U upgraderName)].

(** One turn of the loop (lines 164-201). *)
Definition upgraderStep (ctx : Context) (m : NewModules) (idx : nat) (v : Version)
    (vars : LoopVars) : M LoopVars :=
  '(toAdd, toRemove, vars') ←
    (if decide (idx = 0%nat) then firstBranch v m vars else olderBranch v vars);
  deployUpgrader ctx v toAdd toRemove vars' ;;
  ret vars'.

(** [for (let idx = 0; idx < versions.length; idx += 1)], on the versions
    from [idx] on. *)
Fixpoint upgraderLoop (ctx : Context) (m : NewModules) (idx : nat)
    (versions : list Version) (vars : LoopVars) : M LoopVars :=
  match versions with
  | [] => ret vars
  | v :: rest =>
      vars' ← upgraderStep ctx m idx v vars;
      upgraderLoop ctx m (S idx) rest vars'
  end.

Definition deployUpgraders (ctx : Context) (m : NewModules) : M LoopVars :=
  versions ← remote AVersions (LoadVersions BACKWARD_COMPATIBILITY)
                    (λ t, w_load W t BACKWARD_COMPATIBILITY);
  upgraderLoop ctx m 0 versions {| newVersion := ∅; targetFingerprint := None |}.

(** *** Upload version (line 208) *)
Definition uploadVersion (vars : LoopVars) : M unit :=
  remote (λ _, AUnit) (UploadVersion (newVersion vars))
         (λ t, w_upload W t (newVersion vars)).

(** *** [deploy] (lines 24-209) *)
Definition deploy (network : string) : M unit :=
  warnIfUnsupported network ;;
  ctx ← setup network;
  infra ← deployInfrastructure ctx;
  m ← deployModules network infra;
  updateConfig infra m ;;
  configuratorSave ;;
  uploadAbis infra m ;;
  registerModules ctx m ;;
  vars ← deployUpgraders ctx m;
  uploadVersion vars.
End Script.

(** ** What the log shows *)

(** The wrappers the module deployments answered with, in the order of the
    log. *)
Definition isModuleArtifact (a : Artifact) : bool :=
  match a with
  | ApprovedTransfer | RecoveryManager | MakerV2Manager | TransferManager => true
  | _ => false
  end.

Definition moduleDeployment (e : Entry) : option Wrapper :=
  match event e, outcome e with
  | Deploy a _, Ok (AWrapper w) => if isModuleArtifact a then Some w else None
  | _, _ => None
  end.

Definition newlyDeployed (log : list Entry) : list Wrapper := omap moduleDeployment log.

(** The versions [versionUploader.load] answered with. *)
Definition loadAnswer (e : Entry) : option (list Version) :=
  match event e, outcome e with
  | LoadVersions _, Ok (AVersions l) => Some l
  | _, _ => None
  end.

Definition loaded (log : list Entry) : list (list Version) := omap loadAnswer log.

(** The manifests handed to [versionUploader.upload]. *)
Definition uploadArgument (e : Entry) : option (gmap string Value) :=
  match event e with
  | UploadVersion manifest => Some manifest
  | _ => None
  end.

Definition uploaded (log : list Entry) : list (gmap string Value) := omap uploadArgument log.

(** The constructor arguments of the upgraders that were deployed. *)
Definition upgraderArguments (e : Entry) : option (list Value) :=
  match event e with
  | Deploy Upgrader args => Some args
  | _ => None
  end.

Definition upgraders (log : list Entry) : list (list Value) := omap upgraderArguments log.

(** ** A world to run the script in *)

Module Sample.

(** The semver package on plain MAJOR.MINOR.PATCH strings. *)
Fixpoint fields (s : string) : list string :=
  match s with
  | EmptyString => [EmptyString]
  | String c rest =>
      if Ascii.eqb c "."%char then EmptyString :: fields rest
      else match fields rest with
           | f :: fs => String c f :: fs
           | [] => [String c EmptyString]
           end
  end.

Definition digit (c : ascii) : option N :=
  let n := N_of_ascii c in
  if ((48 <=? n) && (n <=? 57))%N then Some (n - 48)%N else None.

Fixpoint digits (s : string) (acc : N) : option N :=
  match s with
  | EmptyString => Some acc
  | String c rest => d ← digit c; digits rest (10 * acc + d)%N
  end.

Definition number (s : string) : option N :=
  match s with
  | EmptyString => None
  | String c (String _ _) => if Ascii.eqb c "0"%char then None else digits s 0
  | _ => digits s 0
  end.

Definition parse (s : string) : option (N * N * N) :=
  match fields s with
  | [a; b; c] => x ← number a; y ← number b; z ← number c; Some (x, y, z)
  | _ => None
  end.

Definition lower (v w : N * N * N) : bool :=
  let '(a, b, c) := v in
  let '(x, y, z) := w in
  ((a <? x) || ((a =? x) && ((b <? y) || ((b =? y) && (c <? z)))))%N.

Definition semver : Semver :=
  {| semver_lt := λ v w, x ← parse v; y ← parse w; Some (lower x y);
     semver_lt_error := λ v w,
       "Invalid Version: " +:+ match parse v with Some _ => w | None => v end;
     semver_inc := λ v release,
       if decide (release = "patch") then
         '(a, b, c) ← parse v;
         Some (pretty a +:+ "." +:+ pretty b +:+ "." +:+ pretty (c + 1)%N)
       else None |}.

(** An additive checksum of the addresses: a fingerprint that does not
    depend on the order of the modules. *)
Fixpoint code (s : string) : N :=
  match s with
  | EmptyString => 0
  | String c rest => (N_of_ascii c + code rest)%N
  end.

Definition checksum (l : list ModuleDesc) : N :=
  foldr (λ module acc, (code (address module) + acc)%N) 0%N l.

Definition utilities : Utilities :=
  {| versionFingerprint := λ l, "0x" +:+ pretty (checksum l);
     asciiToBytes32 := λ s, "bytes32:" +:+ s |}.

Definition artifactName (a : Artifact) : string :=
  match a with
  | ApprovedTransfer => "ApprovedTransfer"
  | RecoveryManager => "RecoveryManager"
  | MultiSig => "MultiSigWallet"
  | ModuleRegistry => "ModuleRegistry"
  | Upgrader => "SimpleUpgrader"
  | TokenPriceProvider => "TokenPriceProvider"
  | MakerRegistry => "MakerRegistry"
  | ScdMcdMigration => "ScdMcdMigration"
  | MakerV2Manager => "MakerV2Manager"
  | TransferManager => "TransferManager"
  end.

Definition text (v : Value) : string :=
  match v with VStr s => s | _ => "undefined" end.

Definition configurationFile : Config :=
  {| cfg_contracts :=
       <["ModuleRegistry" := VStr "0xc1"]>
       (<["MultiSigWallet" := VStr "0xc2"]>
       (<["TokenPriceProvider" := VStr "0xc3"]> ∅));
     cfg_modules :=
       <["GuardianStorage" := VStr "0xd1"]>
       (<["TransferStorage" := VStr "0xd2"]>
       (<["TransferManager" := VStr "0xd3"]> ∅));
     cfg_settings := <["securityPeriod" := VNum 3600]> ∅;
     cfg_maker :=
       <["migration" := VStr "0xe1"]>
       (<["pot" := VStr "0xe2"]> (<["jug" := VStr "0xe3"]> ∅));
     cfg_uniswap := <["factory" := VStr "0xe4"]> ∅;
     cfg_multisig := <["autosign" := VBool true]> ∅;
     cfg_gitHash := VStr "0000000" |}.

(** Every call succeeds, except the one made at time [failAt]; a
    deployment at time [t] lands at address [0x<t>]; the version store
    holds [versions]. *)
Definition answer {A} (failAt : option nat) (t : nat) (a : A) : result A :=
  if decide (failAt = Some t) then Err "rejected" else Ok a.

Definition world (versions : list Version) (failAt : option nat) : World :=
  {| w_setup := λ t _,
       answer failAt t {| configuration := configurationFile;
                          gasPrice := VNum 20; deploymentWallet := VStr "0xf0" |};
     w_wrapDeployedContract := λ t a addr,
       answer failAt t {| contractAddress := text addr;
                          contractName := artifactName a |};
     w_deploy := λ t a _,
       answer failAt t {| contractAddress := "0x" +:+ pretty t;
                          contractName := artifactName a |};
     w_view := λ t _ method, answer failAt t ("0xa" +:+ method);
     w_send := λ t _ method _, answer failAt t ("tx:" +:+ method);
     w_waitForTransaction := λ t _ _ _, answer failAt t tt;
     w_execSync := λ t _, answer failAt t ("9fceb02" +:+ String "010" EmptyString);
     w_save := λ t _, answer failAt t tt;
     w_abiUploads := λ t _, answer failAt t tt;
     w_executeCall := λ t _ _ _ _, answer failAt t tt;
     w_load := λ t _, answer failAt t versions;
     w_upload := λ t _, answer failAt t tt;
     w_now := λ t, 1577836800123 |}.

Definition v15 : Version :=
  {| version := "1.5.0"; createdAt := 1570000000;
     modules := [ {| name := "GuardianManager"; address := "0xb1" |};
                  {| name := "UniswapManager"; address := "0xb2" |};
                  {| name := "TransferManager"; address := "0xb3" |};
                  {| name := "TokenExchanger"; address := "0xb4" |} ];
     fingerprint := "0xaaaa" |}.

(** [v15] with its modules listed in another order. *)
Definition v15' : Version :=
  {| version := "1.5.0"; createdAt := 1570000000;
     modules := [ {| name := "UniswapManager"; address := "0xb2" |};
                  {| name := "TokenExchanger"; address := "0xb4" |};
                  {| name := "GuardianManager"; address := "0xb1" |};
                  {| name := "TransferManager"; address := "0xb3" |} ];
     fingerprint := "0xaaaa" |}.

Definition v16 : Version :=
  {| version := "1.6.2"; createdAt := 1580000000;
     modules := [ {| name := "GuardianManager"; address := "0xb1" |};
                  {| name := "TransferManager"; address := "0xb5" |} ];
     fingerprint := "0xdddd" |}.

Definition v14 : Version :=
  {| version := "1.4.0"; createdAt := 1560000000;
     modules := [ {| name := "GuardianManager"; address := "0xb1" |};
                  {| name := "TransferManager"; address := "0xb0" |};
                  {| name := "TokenExchanger"; address := "0xb4" |} ];
     fingerprint := "0xbbbb" |}.

(** The example of the specification: the most recent version, the newly
    deployed modules, its target, and an older version. *)
Definition specV1 : Version :=
  {| version := "1.0.0"; createdAt := 0;
     modules := [ {| name := "A"; address := "0x1" |};
                  {| name := "B"; address := "0x2" |};
                  {| name := "C"; address := "0x3" |} ];
     fingerprint := "0x01" |}.

Definition specDeployed : list Wrapper :=
  [ {| contractAddress := "0x9"; contractName := "C" |};
    {| contractAddress := "0x8"; contractName := "D" |} ].

Definition specTarget : list ModuleDesc :=
  [ {| name := "A"; address := "0x1" |};
    {| name := "C"; address := "0x9" |};
    {| name := "D"; address := "0x8" |} ].

Definition specV0 : Version :=
  {| version := "0.9.0"; createdAt := 0;
     modules := [ {| name := "A"; address := "0x1" |};
                  {| name := "C"; address := "0x3" |};
                  {| name := "E"; address := "0x5" |} ];
     fingerprint := "0x00" |}.

(** An older version that lists the address of a kept module under another
    name. *)
Definition renamed : Version :=
  {| version := "1.3.0"; createdAt := 1550000000;
     modules := [ {| name := "GuardianManagerV1"; address := "0xb1" |};
                  {| name := "TokenExchanger"; address := "0xb4" |} ];
     fingerprint := "0xcccc" |}.

Definition run (network : string) (versions : list Version) (failAt : option nat)
  : list Entry * Store * Completion unit :=
  deploy (world versions failAt) utilities semver network initial.

(** The runs the properties below are tried on. *)
Definition runOne := run "kovan" [v15] None.
Definition runTwo := run "kovan" [v15; v14] None.
Definition runReordered := run "staging" [v15'; v14] None.
Definition runRenamed := run "kovan" [v15; renamed] None.
Definition runRejected := run "kovan" [v15] (Some 5%nat).
Definition runTest := run "test" [v15] None.
Definition runEmpty := run "kovan" [] None.
Definition runPatch := run "prod" [v16] None.
End Sample.

(** ** What the claims say, in the vocabulary of the model *)

(** Two module lists hold the same (name, address) pairs. *)
Definition sameModules (l k : list ModuleDesc) : Prop := ∀ x, x ∈ l ↔ x ∈ k.

(** No (name, address) pair is in both lists. *)
Definition disjointModules (l k : list ModuleDesc) : Prop := ∀ x, x ∈ l → x ∉ k.

(** An address names one module only, across a version and the target. *)
Definition addressesAgree (target : list ModuleDesc) (v : Version) : Prop :=
  ∀ x y, x ∈ modules v → y ∈ target → address x = address y → name x = name y.

(** The diff of an older version turns its module set into the target. *)
Definition diffReachesTarget (target : list ModuleDesc) (v : Version) : Prop :=
  sameModules
    (olderToAdd target v ++ list_difference (modules v) (olderToRemove target v))%list
    target.

(** The constructor arguments of an upgrader (lines 193-195). *)
Definition upgraderArgs (registry : Value) (toAdd toRemove : list ModuleDesc)
  : list Value :=
  [registry; VAddrs (address <$> toRemove); VAddrs (address <$> toAdd)].

(** The three calls one turn of the upgrader loop makes, as they are logged
    when all succeed. *)
Definition upgraderEntries (U : Utilities) (ctx : Context) (registry : Value)
    (target : option string) (v : Version) (toAdd toRemove : list ModuleDesc)
    (up : Wrapper) : list Entry :=
  let upgraderName := fingerprint v +:+ "_" +:+ interpolate target in
  [ {| event := Deploy Upgrader (upgraderArgs registry toAdd toRemove);
       outcome := Ok (AWrapper up) |};
    {| event := ExecuteCall (multisigExecutor ctx) (ModuleRegistryWrapper ctx)
         "registerModule"
         [VStr (contractAddress up); VStr (asciiToBytes32 U upgraderName)];
       outcome := Ok AUnit |};
    {| event := ExecuteCall (multisigExecutor ctx) (ModuleRegistryWrapper ctx)
         "registerUpgrader"
         [VStr (contractAddress up); VStr (asciiToBytes32 U upgraderName)];
       outcome := Ok AUnit |} ].

(** What the upgrader loop logs on the versions [versions] when the
    upgraders land in the wrappers [ups] and every call succeeds: the first
    version is diffed by name against the lists of the script, the others
    by address against the target made from the first. *)
Definition expectedUpgraderLog (U : Utilities) (ctx : Context) (registry : Value)
    (ws : list Wrapper) (versions : list Version) (ups : list Wrapper) : list Entry :=
  match versions, ups with
  | v0 :: rest, up0 :: ups' =>
      let target := modulesInNewVersion MODULES_TO_DISABLE MODULES_TO_ENABLE v0 ws in
      let fp := Some (versionFingerprint U target) in
      upgraderEntries U ctx registry fp v0
        (firstToAdd ws) (firstToRemove MODULES_TO_DISABLE MODULES_TO_ENABLE v0) up0
      ++ concat (zip_with
           (λ v up, upgraderEntries U ctx registry fp v
                      (olderToAdd target v) (olderToRemove target v) up)
           rest ups')
  | _, _ => []
  end.

(** The constructor arguments of the upgraders of [expectedUpgraderLog]. *)
Definition expectedUpgraderArgs (registry : Value) (ws : list Wrapper)
    (versions : list Version) : list (list Value) :=
  match versions with
  | [] => []
  | v0 :: rest =>
      let target := modulesInNewVersion MODULES_TO_DISABLE MODULES_TO_ENABLE v0 ws in
      upgraderArgs registry (firstToAdd ws)
        (firstToRemove MODULES_TO_DISABLE MODULES_TO_ENABLE v0)
      :: ((λ v, upgraderArgs registry (olderToAdd target v) (olderToRemove target v))
            <$> rest)
  end.

(** The manifest the first turn of the loop builds from the most recent
    version [v]: [lower] is the answer of [semver.lt], [t] the time. *)
Definition firstManifest (W : World) (U : Utilities) (SV : Semver) (v : Version)
    (ws : list Wrapper) (lower : bool) (t : nat) : gmap string Value :=
  let target := modulesInNewVersion MODULES_TO_DISABLE MODULES_TO_ENABLE v ws in
  <["fingerprint" := VStr (versionFingerprint U target)]>
  (<["modules" := VModules target]>
  (<["createdAt" := VNum (w_now W t / 1000)]>
  (<["version" := if lower then VStr TARGET_VERSION
                  else from_option VStr VNull (semver_inc SV (version v) "patch")]>
   ∅))).

(** The calls on the configurator. *)
Definition isConfigCall (ev : Event) : bool :=
  match ev with
  | UpdateModuleAddresses _ | UpdateInfrastructureAddresses _ | UpdateGitHash _
  | SaveConfig _ => true
  | _ => false
  end.

Definition configCalls (log : list Entry) : list Event :=
  filter (λ ev, isConfigCall ev = true) (event <$> log).

(** The allow-listed network that takes the same turn as [network] at
    line 115. *)
Definition allowListed (network : string) : string :=
  if decide (network ∈ ["test"; "staging"; "prod"]) then "staging" else "kovan".

(** The three lines of lines 26-28, as they are logged. *)
Definition warnings (network : string) : list Entry :=
  [ {| event := ConsoleWarn dashes; outcome := Ok AUnit |};
    {| event := ConsoleWarn
         ("WARNING: The MakerManagerV2 module is not fully functional on " +:+ network);
       outcome := Ok AUnit |};
    {| event := ConsoleWarn dashes; outcome := Ok AUnit |} ].

(** ** Relations between a piece of the script and what it logs *)

(** What a relation between the store before, the log written, the store
    after and the exception thrown (if any) needs in order to hold of a
    sequence of steps when it holds of each. *)
Class Sequential (R : Store → list Entry → Store → option Failure → Prop) := {
  seq_nil s : R s [] s None;
  seq_app s evs1 s1 evs2 s2 o :
    R s evs1 s1 None → R s1 evs2 s2 o → R s (evs1 ++ evs2) s2 o
}.

Definition thrown {A} (r : Completion A) : option Failure :=
  match r with Returns _ => None | Throws f => Some f end.

Definition obeys (R : Store → list Entry → Store → option Failure → Prop)
    {A} (m : M A) : Prop :=
  ∀ s evs s' r, m s = (evs, s', r) → R s evs s' (thrown r).

(** Every call logged is one of [P]. *)
Definition emitsOnly (P : Event → Prop)
  : Store → list Entry → Store → option Failure → Prop :=
  λ _ evs _ _, Forall (λ e, P (event e)) evs.

(** Every call logged succeeded, except the last one when its rejection is
    what is thrown. *)
Definition stopsAtFailure : Store → list Entry → Store → option Failure → Prop :=
  λ _ evs _ o,
    match o with
    | Some (Rejected e) =>
        ∃ pre ev, evs = pre ++ [{| event := ev; outcome := Err e |}]
                  ∧ Forall succeeded pre
    | _ => Forall succeeded evs
    end.

(** A component of the store stays as it is. *)
Definition preserves {X} (f : Store → X)
  : Store → list Entry → Store → option Failure → Prop :=
  λ s _ s' _, f s' = f s.

(** Calls that none of the readings of the log above looks at. *)
Definition quiet (ev : Event) : bool :=
  match ev with
  | Deploy a _ => negb (isModuleArtifact a) && bool_decide (a ≠ Upgrader)
  | UpdateModuleAddresses _ | UpdateInfrastructureAddresses _ | UpdateGitHash _
  | SaveConfig _ | LoadVersions _ | UploadVersion _ => false
  | _ => true
  end.

Definition silent (log : list Entry) : Prop :=
  newlyDeployed log = [] ∧ loaded log = [] ∧ uploaded log = []
  ∧ upgraders log = [] ∧ configCalls log = [].

(** The calls of the upgrader loop. *)
Definition loopCall (ev : Event) : bool :=
  match ev with
  | Deploy Upgrader _ | ExecuteCall _ _ _ _ => true
  | _ => false
  end.

(** The calls of the first half of the script: anything but the calls on
    the version store and the deployment of an upgrader. *)
Definition headCall (ev : Event) : bool :=
  match ev with
  | Deploy Upgrader _ | LoadVersions _ | UploadVersion _ => false
  | _ => true
  end.

(** The calls of the second half. *)
Definition finishCall (ev : Event) : bool :=
  match ev with
  | Deploy Upgrader _ | ExecuteCall _ _ _ _ | LoadVersions _ | UploadVersion _ => true
  | _ => false
  end.

(** ** The script in two halves *)

Section Halves.
Variables (W : World) (U : Utilities) (SV : Semver).

(** Everything up to the registration of the new modules (lines 25-154). *)
Definition prepare (network : string) : M (Context * NewModules) :=
  warnIfUnsupported network ;;
  ctx ← setup W network;
  infra ← deployInfrastructure W ctx;
  m ← deployModules W network infra;
  updateConfig W infra m ;;
  configuratorSave W ;;
  uploadAbis W infra m ;;
  registerModules W U ctx m ;;
  ret (ctx, m).

(** The upgraders and the publication of the version (lines 161-208). *)
Definition finish (ctx : Context) (m : NewModules) : M unit :=
  vars ← deployUpgraders W U SV ctx m;
  uploadVersion W vars.
End Halves.

(** ** More readings of the log *)

(** The messages handed to [console.warn]. *)
Definition consoleWarning (e : Entry) : option string :=
  match event e with ConsoleWarn msg => Some msg | _ => None end.

Definition consoleWarnings (log : list Entry) : list string := omap consoleWarning log.

(** The contexts the deploy manager answered with. *)
Definition managerAnswer (e : Entry) : option Manager :=
  match event e, outcome e with
  | ManagerSetup _, Ok (AManager mgr) => Some mgr
  | _, _ => None
  end.

Definition managers (log : list Entry) : list Manager := omap managerAnswer log.

(** The constructor arguments of the deployments of the artifact [a]. *)
Definition deploymentOf (a : Artifact) (e : Entry) : option (list Value) :=
  match event e with
  | Deploy a' args => if decide (a' = a) then Some args else None
  | _ => None
  end.

Definition deployments (a : Artifact) (log : list Entry) : list (list Value) :=
  omap (deploymentOf a) log.

(** The wrappers the deployments of the artifact [a] answered with. *)
Definition deployedAs (a : Artifact) (e : Entry) : option Wrapper :=
  match event e, outcome e with
  | Deploy a' _, Ok (AWrapper w) => if decide (a' = a) then Some w else None
  | _, _ => None
  end.

Definition deployed (a : Artifact) (log : list Entry) : list Wrapper :=
  omap (deployedAs a) log.

(** The transactions sent and waited for. *)
Definition transactionEntry (e : Entry) : option Entry :=
  match event e with
  | SendTransaction _ _ _ | WaitForTransaction _ _ _ => Some e
  | _ => None
  end.

Definition transactions (log : list Entry) : list Entry := omap transactionEntry log.

(** What [git rev-parse HEAD] printed. *)
Definition execOutput (e : Entry) : option string :=
  match event e, outcome e with
  | ExecSync _, Ok (AString out) => Some out
  | _, _ => None
  end.

Definition execOutputs (log : list Entry) : list string := omap execOutput log.

(** The batches handed to the ABI uploader. *)
Definition abiBatch (e : Entry) : option (list (Wrapper * string)) :=
  match event e with AbiUploads uploads => Some uploads | _ => None end.

Definition abiBatches (log : list Entry) : list (list (Wrapper * string)) :=
  omap abiBatch log.

(** The arguments of the [registerModule] calls made through the multisig. *)
Definition registration (e : Entry) : option (list Value) :=
  match event e with
  | ExecuteCall _ _ method args =>
      if decide (method = "registerModule") then Some args else None
  | _ => None
  end.

Definition registrations (log : list Entry) : list (list Value) := omap registration log.

(** The contracts deployed and the calls made through the multisig. *)
Definition isDeployment (e : Entry) : bool :=
  match event e with Deploy _ _ => true | _ => false end.

Definition isMultisigCall (e : Entry) : bool :=
  match event e with ExecuteCall _ _ _ _ => true | _ => false end.

(** The transactions of the infrastructure phase in the order of lines
    62-65: [addCollateral] is sent on a wrapper, the transaction it answers
    with is waited for on the same wrapper, and only when that wait has
    succeeded is [changeOwner] sent on it, and its transaction waited for. *)
Definition handover (l : list Entry) : Prop :=
  match l with
  | [] => True
  | e1 :: l1 =>
      match event e1 with
      | SendTransaction w method1 _ =>
          method1 = "addCollateral"
          ∧ match l1 with
            | [] => True
            | e2 :: l2 =>
                match event e2 with
                | WaitForTransaction w2 tx2 _ =>
                    w2 = w ∧ outcome e1 = Ok (AString tx2)
                    ∧ match l2 with
                      | [] => True
                      | e3 :: l3 =>
                          match event e3 with
                          | SendTransaction w3 method3 _ =>
                              w3 = w ∧ method3 = "changeOwner"
                              ∧ outcome e2 = Ok AUnit
                              ∧ match l3 with
                                | [] => True
                                | [e4] =>
                                    match event e4 with
                                    | WaitForTransaction w4 tx4 _ =>
                                        w4 = w ∧ outcome e3 = Ok (AString tx4)
                                    | _ => False
                                    end
                                | _ => False
                                end
                          | _ => False
                          end
                      end
                | _ => False
                end
            end
      | _ => False
      end
  end.

(** The arguments [registerModule] is called with for a wrapper
    (line 153). *)
Definition registrationOf (U : Utilities) (wrapper : Wrapper) : list Value :=
  [VStr (contractAddress wrapper); VStr (asciiToBytes32 U (contractName wrapper))].

Definition zeroAddress : string := "0x0000000000000000000000000000000000000000".

Definition deploymentCount (log : list Entry) : nat :=
  length (filter (λ e, isDeployment e = true) log).

Definition multisigCallCount (log : list Entry) : nat :=
  length (filter (λ e, isMultisigCall e = true) log).

(** The names the upgraders are registered under (lines 175 and 189): the
    fingerprint of the version, an underscore, and the fingerprint of the
    target made from the most recent version. *)
Definition upgraderNames (U : Utilities) (ws : list Wrapper) (versions : list Version)
  : list string :=
  match versions with
  | [] => []
  | v0 :: _ =>
      let target := modulesInNewVersion MODULES_TO_DISABLE MODULES_TO_ENABLE v0 ws in
      (λ v, asciiToBytes32 U (fingerprint v +:+ "_" +:+ versionFingerprint U target))
        <$> versions
  end.

(** The arguments of the two registrations of an upgrader (lines 198-201). *)
Definition upgraderRegistration (up : Wrapper) (upgraderName : string) : list Value :=
  [VStr (contractAddress up); VStr upgraderName].

(** The wrappers [deployer.wrapDeployedContract] answered with for the
    artifact [a]. *)
Definition wrappedAs (a : Artifact) (e : Entry) : option Wrapper :=
  match event e, outcome e with
  | WrapDeployedContract a' _, Ok (AWrapper w) => if decide (a' = a) then Some w else None
  | _, _ => None
  end.

Definition wrapped (a : Artifact) (log : list Entry) : list Wrapper :=
  omap (wrappedAs a) log.

(** A call through the multisig is [registerModule] or [registerUpgrader]
    on the one wrapper of [registry], by an executor on the one wrapper of
    [multisig]. *)
Definition registryCall (registry multisig : list Wrapper) (e : Entry) : Prop :=
  match event e with
  | ExecuteCall ex target method _ =>
      registry = [target] ∧ multisig = [ex_multisig ex]
      ∧ (method = "registerModule" ∨ method = "registerUpgrader")
  | _ => True
  end.

(** The same of a call by the executor [ex] on [target]. *)
Definition registryCallBy (ex : MultisigExecutor) (target : Wrapper) (ev : Event) : Prop :=
  match ev with
  | ExecuteCall ex' target' method _ =>
      ex' = ex ∧ target' = target
      ∧ (method = "registerModule" ∨ method = "registerUpgrader")
  | _ => True
  end.

(** A transaction is sent on, and waited for on, the one wrapper of
    [registries], and the MakerV2Manager is constructed with its address as
    sixth argument (line 100). *)
Definition onNewRegistry (registries : list Wrapper) (e : Entry) : Prop :=
  match event e with
  | SendTransaction w _ _ | WaitForTransaction w _ _ => registries = [w]
  | Deploy MakerV2Manager args =>
      ∃ w, registries = [w] ∧ args !! 5%nat = Some (VStr (contractAddress w))
  | _ => True
  end.

(** ** More sample runs *)

Module MoreSamples.

Definition runRopsten := Sample.run "ropsten" [Sample.v15] None.
Definition runStalled := Sample.run "kovan" [Sample.v15] (Some 8%nat).
Definition runUnpublished := Sample.run "kovan" [Sample.v15] (Some 27%nat).
End MoreSamples.

(** * Properties *)

(** ** The module-set arithmetic *)

Lemma elem_of_toKeep dis en v x :
  x ∈ toKeep dis en v ↔ x ∈ modules v ∧ (name x ∉ dis) ∧ (name x ∉ en).
Proof.
  unfold toKeep, moduleNamesToRemove.
  rewrite list_elem_of_filter, not_elem_of_app. tauto.
Qed.

Lemma elem_of_modulesInNewVersion dis en v ws x :
  x ∈ modulesInNewVersion dis en v ws ↔
  (x ∈ modules v ∧ (name x ∉ dis) ∧ (name x ∉ en)) ∨ x ∈ (moduleOfWrapper <$> ws).
Proof.
  unfold modulesInNewVersion, firstToAdd.
  rewrite elem_of_app, elem_of_toKeep. tauto.
Qed.

Lemma elem_of_olderToAdd target v x :
  x ∈ olderToAdd target v ↔ x ∈ target ∧ address x ∉ (address <$> modules v).
Proof. unfold olderToAdd. rewrite list_elem_of_filter. tauto. Qed.

Lemma elem_of_olderToRemove target v x :
  x ∈ olderToRemove target v ↔ x ∈ modules v ∧ address x ∉ (address <$> target).
Proof. unfold olderToRemove. rewrite list_elem_of_filter. tauto. Qed.

Lemma older_diff_disjoint target v :
  disjointModules (olderToAdd target v) (olderToRemove target v).
Proof.
  intros x Hadd Hrem.
  apply elem_of_olderToAdd in Hadd as [_ Hnot].
  apply elem_of_olderToRemove in Hrem as [Hin _].
  apply Hnot. by apply list_elem_of_fmap_2.
Qed.

Lemma same_address_same_module (x y : ModuleDesc) :
  address x = address y → name x = name y → x = y.
Proof. destruct x, y; simpl; congruence. Qed.

Lemma older_diff_reaches_target target v :
  addressesAgree target v → diffReachesTarget target v.
Proof.
  intros Hagree x. rewrite elem_of_app, list_elem_of_difference.
  rewrite elem_of_olderToAdd, elem_of_olderToRemove. split.
  - intros [[Hx _] | [Hx Hkept]]; [done |].
    destruct (decide (address x ∈ address <$> target)) as [Hin | Hout].
    + apply list_elem_of_fmap in Hin as (y & Haddr & Hy).
      by rewrite (same_address_same_module x y Haddr (Hagree x y Hx Hy Haddr)).
    + destruct Hkept. by split.
  - intros Hx.
    destruct (decide (address x ∈ address <$> modules v)) as [Hin | Hout].
    + right. apply list_elem_of_fmap in Hin as (y & Haddr & Hy).
      assert (y = x) as ->.
      { symmetry in Haddr. apply (same_address_same_module y x Haddr).
        by apply Hagree. }
      split; [done |]. intros [_ Hnot]. apply Hnot. by apply list_elem_of_fmap_2.
    + left. by split.
Qed.

(** On addresses, which is what an upgrader is built from, the diff reaches
    the target without any condition. *)
Lemma older_diff_reaches_target_addresses target v a :
  a ∈ address <$> (olderToAdd target v
                   ++ list_difference (modules v) (olderToRemove target v))%list
  ↔ a ∈ address <$> target.
Proof.
  rewrite !list_elem_of_fmap. split.
  - intros (x & -> & Hx). apply elem_of_app in Hx as [Hx | Hx].
    + apply elem_of_olderToAdd in Hx as [Hx _]. by exists x.
    + apply list_elem_of_difference in Hx as [Hx Hkept].
      rewrite elem_of_olderToRemove in Hkept.
      destruct (decide (address x ∈ address <$> target)) as [Hin | Hout].
      * by apply list_elem_of_fmap in Hin.
      * destruct Hkept. by split.
  - intros (y & -> & Hy).
    destruct (decide (address y ∈ address <$> modules v)) as [Hin | Hout].
    + apply list_elem_of_fmap in Hin as (x & Haddr & Hx).
      exists x. split; [done |]. apply elem_of_app. right.
      apply list_elem_of_difference. split; [done |].
      rewrite elem_of_olderToRemove. intros [_ Hnot]. apply Hnot.
      rewrite <- Haddr. by apply list_elem_of_fmap_2.
    + exists y. split; [done |]. apply elem_of_app. left.
      by apply elem_of_olderToAdd.
Qed.

(** ** Reasoning about runs *)

Lemma bind_inv {A B} (m : M A) (k : A → M B) s evs s' r :
  (m ≫= k) s = (evs, s', r) →
  (∃ evs1 s1 a evs2,
      m s = (evs1, s1, Returns a) ∧ k a s1 = (evs2, s', r) ∧ evs = evs1 ++ evs2)
  ∨ (∃ f, m s = (evs, s', Throws f) ∧ r = Throws f).
Proof.
  unfold mbind, M_bind, bind. destruct (m s) as [[evs1 s1] [a | f]].
  - destruct (k a s1) as [[evs2 s2] r2] eqn:Hk. intros [= <- <- <-].
    left. by exists evs1, s1, a, evs2.
  - intros [= <- <- <-]. right. by exists f.
Qed.

Lemma bind_returns {A B} (m : M A) (k : A → M B) s evs s' b :
  (m ≫= k) s = (evs, s', Returns b) →
  ∃ evs1 s1 a evs2,
    m s = (evs1, s1, Returns a) ∧ k a s1 = (evs2, s', Returns b) ∧ evs = evs1 ++ evs2.
Proof. intros H. apply bind_inv in H as [H | (f & _ & [=])]. done. Qed.

Lemma remote_inv {A} (inj : A → Answer) ev answer s evs s' (r : Completion A) :
  remote inj ev answer s = (evs, s', r) →
  s' = tick s ∧
  ((∃ a, answer (clock s) = Ok a ∧ r = Returns a
         ∧ evs = [{| event := ev; outcome := Ok (inj a) |}])
   ∨ (∃ e, answer (clock s) = Err e ∧ r = Throws (Rejected e)
           ∧ evs = [{| event := ev; outcome := Err e |}])).
Proof.
  unfold remote. destruct (answer (clock s)) as [a | e]; intros [= <- <- <-].
  - split; [done |]. left. by exists a.
  - split; [done |]. right. by exists e.
Qed.

Lemma remote_returns {A} (inj : A → Answer) ev answer s evs s' (a : A) :
  remote inj ev answer s = (evs, s', Returns a) →
  answer (clock s) = Ok a ∧ evs = [{| event := ev; outcome := Ok (inj a) |}]
  ∧ s' = tick s.
Proof.
  intros H. apply remote_inv in H as [-> [(b & Hb & [= <-] & ->) | (e & _ & [=] & _)]].
  done.
Qed.

Lemma ret_inv {A} (a : A) s evs s' r :
  ret a s = (evs, s', r) → evs = [] ∧ s' = s ∧ r = Returns a.
Proof. by intros [= <- <- <-]. Qed.

Lemma throw_inv {A} f s evs s' (r : Completion A) :
  throw f s = (evs, s', r) → evs = [] ∧ s' = s ∧ r = Throws f.
Proof. by intros [= <- <- <-]. Qed.

Lemma notify_inv ev s evs s' r :
  notify ev s = (evs, s', r) →
  evs = [{| event := ev; outcome := Ok AUnit |}] ∧ s' = s ∧ r = Returns tt.
Proof. by intros [= <- <- <-]. Qed.

Lemma getConfig_inv s evs s' r :
  getConfig s = (evs, s', r) → evs = [] ∧ s' = s ∧ r = Returns (config s).
Proof. by intros [= <- <- <-]. Qed.

Lemma getClock_inv s evs s' r :
  getClock s = (evs, s', r) → evs = [] ∧ s' = s ∧ r = Returns (clock s).
Proof. by intros [= <- <- <-]. Qed.

Lemma modifyConfig_inv f s evs s' r :
  modifyConfig f s = (evs, s', r) →
  evs = [] ∧ r = Returns tt
  ∧ s' = {| clock := clock s; config := f (config s); persisted := persisted s |}.
Proof. by intros [= <- <- <-]. Qed.

Lemma setPersisted_inv c s evs s' r :
  setPersisted c s = (evs, s', r) →
  evs = [] ∧ r = Returns tt
  ∧ s' = {| clock := clock s; config := config s; persisted := Some c |}.
Proof. by intros [= <- <- <-]. Qed.

Lemma bind_run_returns {A B} (m : M A) (k : A → M B) s e1 s1 a e2 s2 r :
  m s = (e1, s1, Returns a) → k a s1 = (e2, s2, r) → (m ≫= k) s = (e1 ++ e2, s2, r).
Proof. intros Hm Hk. unfold mbind, M_bind, bind. by rewrite Hm, Hk. Qed.

Lemma bind_run_throws {A B} (m : M A) (k : A → M B) s e1 s1 f :
  m s = (e1, s1, Throws f) → (m ≫= k) s = (e1, s1, Throws f).
Proof. intros Hm. unfold mbind, M_bind, bind. by rewrite Hm. Qed.

(** Taking a run apart, call by call: one goal per way the run can go. *)
Ltac run_inv H :=
  cbv beta zeta in H;
  lazymatch type of H with
  | mbind _ _ _ = (_, _, Returns _) =>
      let evs1 := fresh "evs" in
      let s1 := fresh "s" in
      let a := fresh "a" in
      let evs2 := fresh "evs" in
      let H1 := fresh "Hrun" in
      let H2 := fresh "Hrun" in
      apply bind_returns in H as (evs1 & s1 & a & evs2 & H1 & H2 & ->);
      run_inv H1; run_inv H2
  | mbind _ _ _ = _ =>
      let evs1 := fresh "evs" in
      let s1 := fresh "s" in
      let a := fresh "a" in
      let f := fresh "f" in
      let evs2 := fresh "evs" in
      let H1 := fresh "Hrun" in
      let H2 := fresh "Hrun" in
      apply bind_inv in H as [(evs1 & s1 & a & evs2 & H1 & H2 & ->) | (f & H1 & ?)];
      [run_inv H1; run_inv H2 | simplify_eq; run_inv H1]
  | remote _ _ _ _ = (_, _, Returns _) =>
      let Hans := fresh "Hanswer" in
      apply remote_returns in H as (Hans & -> & ->)
  | remote _ _ _ _ = _ =>
      let Hans := fresh "Hanswer" in
      let a := fresh "a" in
      let e := fresh "e" in
      apply remote_inv in H as [-> [(a & Hans & ? & ->) | (e & Hans & ? & ->)]];
      simplify_eq
  | ret _ _ = _ => apply ret_inv in H as (-> & -> & ?); simplify_eq
  | throw _ _ = _ => apply throw_inv in H as (-> & -> & ?); simplify_eq
  | notify _ _ = _ => apply notify_inv in H as (-> & -> & ?); simplify_eq
  | getConfig _ = _ => apply getConfig_inv in H as (-> & -> & ?); simplify_eq
  | getClock _ = _ => apply getClock_inv in H as (-> & -> & ?); simplify_eq
  | modifyConfig _ _ = _ => apply modifyConfig_inv in H as (-> & ? & ->); simplify_eq
  | setPersisted _ _ = _ => apply setPersisted_inv in H as (-> & ? & ->); simplify_eq
  | (match ?x with _ => _ end) _ = _ => destruct x eqn:?; run_inv H
  | _ => idtac
  end.

Section Rules.
Context (R : Store → list Entry → Store → option Failure → Prop) `{!Sequential R}.

Lemma obeys_ret {A} (a : A) : obeys R (mret a).
Proof. intros s evs s' r [= <- <- <-]. apply seq_nil. Qed.

Lemma obeys_bind {A B} (m : M A) (k : A → M B) :
  obeys R m → (∀ a, obeys R (k a)) → obeys R (m ≫= k).
Proof.
  intros Hm Hk s evs s' r Hrun.
  apply bind_inv in Hrun as [(evs1 & s1 & a & evs2 & H1 & H2 & ->) | (f & H1 & ->)].
  - eapply seq_app; [apply (Hm _ _ _ _ H1) | apply (Hk _ _ _ _ _ H2)].
  - apply (Hm _ _ _ _ H1).
Qed.

Lemma obeys_throw {A} f : (∀ s, R s [] s (Some f)) → obeys R (@throw A f).
Proof. intros H s evs s' r [= <- <- <-]. apply H. Qed.

Lemma obeys_remote {A} (inj : A → Answer) ev answer :
  (∀ s a, R s [{| event := ev; outcome := Ok a |}] (tick s) None) →
  (∀ s e, R s [{| event := ev; outcome := Err e |}] (tick s) (Some (Rejected e))) →
  obeys R (remote inj ev answer).
Proof.
  intros Hok Herr s evs s' r Hrun.
  apply remote_inv in Hrun as [-> [(a & _ & -> & ->) | (e & _ & -> & ->)]];
    [apply Hok | apply Herr].
Qed.

Lemma obeys_notify ev :
  (∀ s, R s [{| event := ev; outcome := Ok AUnit |}] s None) → obeys R (notify ev).
Proof. intros H s evs s' r [= <- <- <-]. apply H. Qed.

Lemma obeys_getConfig : obeys R getConfig.
Proof. intros s evs s' r [= <- <- <-]. apply seq_nil. Qed.

Lemma obeys_getClock : obeys R getClock.
Proof. intros s evs s' r [= <- <- <-]. apply seq_nil. Qed.

Lemma obeys_modifyConfig f :
  (∀ s, R s [] {| clock := clock s; config := f (config s);
                  persisted := persisted s |} None) →
  obeys R (modifyConfig f).
Proof. intros H s evs s' r [= <- <- <-]. apply H. Qed.

Lemma obeys_setPersisted c :
  (∀ s, R s [] {| clock := clock s; config := config s; persisted := Some c |} None) →
  obeys R (setPersisted c).
Proof. intros H s evs s' r [= <- <- <-]. apply H. Qed.

Lemma obeys_forEach {A} (l : list A) body :
  (∀ x, obeys R (body x)) → obeys R (forEach l body).
Proof.
  intros Hbody. induction l as [| x l IH]; simpl.
  - apply obeys_ret.
  - apply obeys_bind; [apply Hbody | intros _; apply IH].
Qed.
End Rules.

(** One step of a proof that a piece of the script obeys [R]; [side] closes
    what [R] asks of a single call. *)
Ltac obeys_premise side :=
  lazymatch goal with
  | |- Sequential _ => apply _
  | |- obeys _ _ => idtac
  | |- ∀ _, obeys _ _ => intros ?
  | |- _ => intros; side
  end.

Ltac obeys_step side :=
  cbv beta zeta;
  lazymatch goal with
  | |- obeys _ (mbind _ _) => apply obeys_bind
  | |- obeys _ (mret _) => apply obeys_ret
  | |- obeys _ (ret _) => apply obeys_ret
  | |- obeys _ (throw _) => apply obeys_throw
  | |- obeys _ (remote _ _ _) => apply obeys_remote
  | |- obeys _ (notify _) => apply obeys_notify
  | |- obeys _ getConfig => apply obeys_getConfig
  | |- obeys _ getClock => apply obeys_getClock
  | |- obeys _ (modifyConfig _) => apply obeys_modifyConfig
  | |- obeys _ (setPersisted _) => apply obeys_setPersisted
  | |- obeys _ (forEach _ _) => apply obeys_forEach
  | |- obeys _ (match ?x with _ => _ end) => destruct x
  end;
  obeys_premise side.

(** *** Three such relations *)

#[global] Instance emitsOnly_sequential P : Sequential (emitsOnly P).
Proof.
  split; unfold emitsOnly.
  - intros _. constructor.
  - intros _ evs1 _ evs2 _ _ H1 H2. by apply Forall_app.
Qed.

#[global] Instance stopsAtFailure_sequential : Sequential stopsAtFailure.
Proof.
  split; unfold stopsAtFailure.
  - intros _. constructor.
  - intros _ evs1 _ evs2 _ o H1 H2. destruct o as [[e | msg] |].
    + destruct H2 as (pre & ev & -> & Hpre). exists (evs1 ++ pre), ev.
      split; [by rewrite app_assoc | by apply Forall_app].
    + by apply Forall_app.
    + by apply Forall_app.
Qed.

#[global] Instance preserves_sequential {X} (f : Store → X) : Sequential (preserves f).
Proof.
  split; unfold preserves.
  - done.
  - intros s evs1 s1 evs2 s2 _ H1 H2. congruence.
Qed.

Ltac emitsOnly_side :=
  unfold emitsOnly; repeat constructor; simpl; try done.

Ltac stopsAtFailure_side :=
  unfold stopsAtFailure, succeeded; simpl;
  first [ by (repeat constructor; simpl; eauto)
        | by (eexists [], _; split; [reflexivity | constructor]) ].

Ltac preserves_side := by unfold preserves.

Ltac unfold_script :=
  unfold deploy, warnIfUnsupported, setup, deployInfrastructure, deployModules,
    updateConfig, configuratorSave, uploadAbis, registerModules, deployUpgraders,
    uploadVersion, upgraderStep, firstBranch, olderBranch, deployUpgrader,
    wrapDeployedContract, deployContract, viewCall, sendTransaction,
    verboseWaitForTransaction, executeCall.

Section ScriptProperties.
Context (W : World) (U : Utilities) (SV : Semver).

(** *** Every piece of the script stops at the first failure *)

Lemma upgraderStep_stops ctx m idx v vars :
  obeys stopsAtFailure (upgraderStep W U SV ctx m idx v vars).
Proof. unfold_script. repeat obeys_step stopsAtFailure_side. Qed.

Lemma upgraderLoop_stops ctx m versions :
  ∀ idx vars, obeys stopsAtFailure (upgraderLoop W U SV ctx m idx versions vars).
Proof.
  induction versions as [| v rest IH]; intros idx vars; simpl.
  - apply obeys_ret, _.
  - apply obeys_bind; [apply _ | apply upgraderStep_stops | intros ?; apply IH].
Qed.

Lemma deploy_stops network : obeys stopsAtFailure (deploy W U SV network).
Proof.
  unfold deploy, deployUpgraders.
  repeat first [ apply upgraderLoop_stops
               | progress unfold_script
               | obeys_step stopsAtFailure_side ].
Qed.
End ScriptProperties.

(** ** What the pieces of the script log *)

Lemma newlyDeployed_app l k : newlyDeployed (l ++ k) = newlyDeployed l ++ newlyDeployed k.
Proof. apply omap_app. Qed.

Lemma loaded_app l k : loaded (l ++ k) = loaded l ++ loaded k.
Proof. apply omap_app. Qed.

Lemma uploaded_app l k : uploaded (l ++ k) = uploaded l ++ uploaded k.
Proof. apply omap_app. Qed.

Lemma upgraders_app l k : upgraders (l ++ k) = upgraders l ++ upgraders k.
Proof. apply omap_app. Qed.

Lemma configCalls_app l k : configCalls (l ++ k) = configCalls l ++ configCalls k.
Proof. unfold configCalls. by rewrite fmap_app, filter_app. Qed.

Lemma quiet_silent log :
  Forall (λ e, quiet (event e) = true) log → silent log.
Proof.
  unfold silent, newlyDeployed, loaded, uploaded, upgraders, configCalls.
  induction 1 as [| [ev o] log Hq _ IH]; [done |].
  destruct IH as (IH1 & IH2 & IH3 & IH4 & IH5).
  simpl in Hq. destruct ev; try discriminate; simpl in *;
    rewrite ?IH1, ?IH2, ?IH3, ?IH4; rewrite ?filter_cons; simpl;
    repeat case_decide; try done.
  all: destruct a; try discriminate; simpl; by destruct o as [[] |].
Qed.

Lemma loopCall_silent log :
  Forall (λ e, loopCall (event e) = true) log →
  newlyDeployed log = [] ∧ loaded log = [] ∧ uploaded log = [] ∧ configCalls log = [].
Proof.
  unfold newlyDeployed, loaded, uploaded, configCalls.
  induction 1 as [| [ev o] log Hq _ IH]; [done |].
  destruct IH as (IH1 & IH2 & IH3 & IH4).
  simpl in Hq. destruct ev; try discriminate; simpl in *;
    rewrite ?IH1, ?IH2, ?IH3; rewrite ?filter_cons; simpl;
    repeat case_decide; try done.
  destruct a; try discriminate; simpl; by destruct o as [[] |].
Qed.

Section Pieces.
Context (W : World) (U : Utilities) (SV : Semver).

Lemma warnIfUnsupported_allowed network s :
  network ∈ ["kovan"; "kovan-fork"; "staging"; "prod"] →
  warnIfUnsupported network s = ([], s, Returns tt).
Proof. intros Hin. unfold warnIfUnsupported. by rewrite decide_True. Qed.

Lemma warnIfUnsupported_other network s :
  network ∉ ["kovan"; "kovan-fork"; "staging"; "prod"] →
  warnIfUnsupported network s = (warnings network, s, Returns tt).
Proof. intros Hout. unfold warnIfUnsupported. by rewrite decide_False. Qed.

Lemma warnIfUnsupported_run network s evs s' r :
  warnIfUnsupported network s = (evs, s', r) →
  silent evs ∧ s' = s ∧ r = Returns tt.
Proof.
  unfold warnIfUnsupported. case_decide.
  - by intros [= <- <- <-].
  - by intros [= <- <- <-].
Qed.

Lemma setup_quiet network :
  obeys (emitsOnly (λ ev, quiet ev = true)) (setup W network).
Proof. unfold_script. repeat obeys_step emitsOnly_side. Qed.

Lemma setup_persisted network : obeys (preserves persisted) (setup W network).
Proof. unfold_script. repeat obeys_step preserves_side. Qed.

Lemma setup_returns network s evs s' ctx :
  setup W network s = (evs, s', Returns ctx) →
  ∃ mgr, {| event := ManagerSetup network; outcome := Ok (AManager mgr) |} ∈ evs
         ∧ config s' = configuration mgr.
Proof.
  intros H. unfold setup, wrapDeployedContract in H. run_inv H.
  exists a. split; [| done]. set_solver.
Qed.

Lemma deployInfrastructure_quiet ctx :
  obeys (emitsOnly (λ ev, quiet ev = true)) (deployInfrastructure W ctx).
Proof. unfold_script. repeat obeys_step emitsOnly_side. Qed.

Lemma deployInfrastructure_config ctx :
  obeys (preserves config) (deployInfrastructure W ctx).
Proof. unfold_script. repeat obeys_step preserves_side. Qed.

Lemma deployInfrastructure_persisted ctx :
  obeys (preserves persisted) (deployInfrastructure W ctx).
Proof. unfold_script. repeat obeys_step preserves_side. Qed.

Lemma deployModules_config network infra :
  obeys (preserves config) (deployModules W network infra).
Proof. unfold_script. repeat obeys_step preserves_side. Qed.

Lemma deployModules_persisted network infra :
  obeys (preserves persisted) (deployModules W network infra).
Proof. unfold_script. repeat obeys_step preserves_side. Qed.

Lemma deployModules_run network infra s evs s' r :
  deployModules W network infra s = (evs, s', r) →
  loaded evs = [] ∧ uploaded evs = [] ∧ upgraders evs = [] ∧ configCalls evs = [].
Proof.
  intros H. unfold deployModules, deployContract in H. run_inv H; done.
Qed.

Lemma deployModules_returns network infra s evs s' m :
  deployModules W network infra s = (evs, s', Returns m) →
  newlyDeployed evs = newModuleWrappers m.
Proof.
  intros H. unfold deployModules, deployContract in H. run_inv H.
  done.
Qed.

Lemma updateConfig_persisted infra m : obeys (preserves persisted) (updateConfig W infra m).
Proof. unfold_script. repeat obeys_step preserves_side. Qed.

Lemma updateConfig_run infra m s evs s' r :
  updateConfig W infra m s = (evs, s', r) →
  newlyDeployed evs = [] ∧ loaded evs = [] ∧ uploaded evs = [] ∧ upgraders evs = []
  ∧ ((∃ gitHash,
        r = Returns tt
        ∧ configCalls evs =
            [UpdateModuleAddresses (newModuleAddresses m);
             UpdateInfrastructureAddresses (newInfrastructureAddresses infra);
             UpdateGitHash gitHash]
        ∧ config s' =
            updateGitHash gitHash
              (updateInfrastructureAddresses (newInfrastructureAddresses infra)
                 (updateModuleAddresses (newModuleAddresses m) (config s))))
     ∨ (thrown r ≠ None
        ∧ configCalls evs =
            [UpdateModuleAddresses (newModuleAddresses m);
             UpdateInfrastructureAddresses (newInfrastructureAddresses infra)])).
Proof.
  intros H. unfold updateConfig in H. run_inv H.
  - repeat split; try done. left. by eexists.
  - repeat split; try done. by right.
Qed.

Lemma configuratorSave_run s evs s' r :
  configuratorSave W s = (evs, s', r) →
  newlyDeployed evs = [] ∧ loaded evs = [] ∧ uploaded evs = [] ∧ upgraders evs = []
  ∧ configCalls evs = [SaveConfig (config s)] ∧ config s' = config s
  ∧ ((r = Returns tt ∧ persisted s' = Some (config s))
     ∨ (thrown r ≠ None ∧ persisted s' = persisted s)).
Proof.
  intros H. unfold configuratorSave in H. run_inv H.
  - repeat split; try done. by left.
  - repeat split; try done. by right.
Qed.

Lemma uploadAbis_quiet infra m :
  obeys (emitsOnly (λ ev, quiet ev = true)) (uploadAbis W infra m).
Proof. unfold_script. repeat obeys_step emitsOnly_side. Qed.

Lemma uploadAbis_config infra m : obeys (preserves config) (uploadAbis W infra m).
Proof. unfold_script. repeat obeys_step preserves_side. Qed.

Lemma uploadAbis_persisted infra m : obeys (preserves persisted) (uploadAbis W infra m).
Proof. unfold_script. repeat obeys_step preserves_side. Qed.

Lemma registerModules_quiet ctx m :
  obeys (emitsOnly (λ ev, quiet ev = true)) (registerModules W U ctx m).
Proof. unfold_script. repeat obeys_step emitsOnly_side. Qed.

Lemma registerModules_config ctx m : obeys (preserves config) (registerModules W U ctx m).
Proof. unfold_script. repeat obeys_step preserves_side. Qed.

Lemma registerModules_persisted ctx m :
  obeys (preserves persisted) (registerModules W U ctx m).
Proof. unfold_script. repeat obeys_step preserves_side. Qed.
End Pieces.

(** ** The upgrader loop *)

Section Loop.
Context (W : World) (U : Utilities) (SV : Semver).

Lemma upgraderStep_calls ctx m idx v vars :
  obeys (emitsOnly (λ ev, loopCall ev = true)) (upgraderStep W U SV ctx m idx v vars).
Proof. unfold_script. repeat obeys_step emitsOnly_side. Qed.

Lemma upgraderStep_config ctx m idx v vars :
  obeys (preserves config) (upgraderStep W U SV ctx m idx v vars).
Proof. unfold_script. repeat obeys_step preserves_side. Qed.

Lemma upgraderStep_persisted ctx m idx v vars :
  obeys (preserves persisted) (upgraderStep W U SV ctx m idx v vars).
Proof. unfold_script. repeat obeys_step preserves_side. Qed.

Lemma upgraderLoop_obeys R `{!Sequential R} ctx m :
  (∀ idx v vars, obeys R (upgraderStep W U SV ctx m idx v vars)) →
  ∀ versions idx vars, obeys R (upgraderLoop W U SV ctx m idx versions vars).
Proof.
  intros Hstep versions. induction versions as [| v rest IH]; intros idx vars; simpl.
  - apply obeys_ret, _.
  - apply obeys_bind; [apply _ | apply Hstep | intros ?; apply IH].
Qed.

(** The first turn, when it returns. *)
Lemma upgraderStep_first_returns ctx m v s evs s' vars' :
  upgraderStep W U SV ctx m 0 v {| newVersion := ∅; targetFingerprint := None |} s
    = (evs, s', Returns vars') →
  ∃ lower up,
    semver_lt SV (version v) TARGET_VERSION = Some lower
    ∧ newVersion vars' = firstManifest W U SV v (newModuleWrappers m) lower (clock s)
    ∧ targetFingerprint vars' =
        Some (versionFingerprint U
                (modulesInNewVersion MODULES_TO_DISABLE MODULES_TO_ENABLE v
                   (newModuleWrappers m)))
    ∧ evs = upgraderEntries U ctx (prop (cfg_contracts (config s)) "ModuleRegistry")
              (targetFingerprint vars') v
              (firstToAdd (newModuleWrappers m))
              (firstToRemove MODULES_TO_DISABLE MODULES_TO_ENABLE v) up.
Proof.
  intros H. unfold upgraderStep, firstBranch, deployUpgrader, deployContract,
    executeCall in H.
  rewrite decide_True in H by done. run_inv H.
  by eexists _, _.
Qed.

(** A later turn, when it returns. *)
Lemma upgraderStep_older_returns ctx m idx v vars target s evs s' vars' :
  idx ≠ 0%nat →
  newVersion vars !! "modules" = Some (VModules target) →
  upgraderStep W U SV ctx m idx v vars s = (evs, s', Returns vars') →
  vars' = vars
  ∧ ∃ up,
      evs = upgraderEntries U ctx (prop (cfg_contracts (config s)) "ModuleRegistry")
              (targetFingerprint vars) v (olderToAdd target v) (olderToRemove target v)
              up.
Proof.
  intros Hidx Htarget H. unfold upgraderStep, olderBranch, deployUpgrader,
    deployContract, executeCall in H.
  rewrite decide_False in H by done. rewrite Htarget in H. run_inv H.
  split; [done |]. by eexists.
Qed.

Lemma upgraderLoop_older_returns ctx m target vars :
  newVersion vars !! "modules" = Some (VModules target) →
  ∀ versions idx s evs s' vars',
    idx ≠ 0%nat →
    upgraderLoop W U SV ctx m idx versions vars s = (evs, s', Returns vars') →
    vars' = vars
    ∧ ∃ ups,
        length ups = length versions
        ∧ evs = concat (zip_with
                  (λ v up, upgraderEntries U ctx
                             (prop (cfg_contracts (config s)) "ModuleRegistry")
                             (targetFingerprint vars) v
                             (olderToAdd target v) (olderToRemove target v) up)
                  versions ups).
Proof.
  intros Htarget versions.
  induction versions as [| v rest IH]; intros idx s evs s' vars' Hidx H; simpl in H.
  - run_inv H. split; [done |]. by exists [].
  - apply bind_returns in H as (evs1 & s1 & vars1 & evs2 & H1 & H2 & ->).
    pose proof (upgraderStep_config _ _ _ _ _ _ _ _ _ H1) as Hcfg.
    unfold preserves in Hcfg.
    apply (upgraderStep_older_returns _ _ _ _ _ target) in H1 as [-> [up ->]];
      [| done | done].
    apply IH in H2 as [-> (ups & Hlen & ->)]; [| done].
    split; [done |]. exists (up :: ups). split; [simpl; by rewrite Hlen |].
    simpl. by rewrite Hcfg.
Qed.

Lemma firstManifest_modules v ws lower t :
  firstManifest W U SV v ws lower t !! "modules"
  = Some (VModules (modulesInNewVersion MODULES_TO_DISABLE MODULES_TO_ENABLE v ws)).
Proof. unfold firstManifest. by simplify_map_eq. Qed.

Lemma firstManifest_fingerprint v ws lower t :
  firstManifest W U SV v ws lower t !! "fingerprint"
  = Some (VStr (versionFingerprint U
                  (modulesInNewVersion MODULES_TO_DISABLE MODULES_TO_ENABLE v ws))).
Proof. unfold firstManifest. by simplify_map_eq. Qed.

Lemma firstManifest_version v ws lower t :
  firstManifest W U SV v ws lower t !! "version"
  = Some (if lower then VStr TARGET_VERSION
          else from_option VStr VNull (semver_inc SV (version v) "patch")).
Proof. unfold firstManifest. by simplify_map_eq. Qed.

Lemma firstManifest_createdAt v ws lower t :
  firstManifest W U SV v ws lower t !! "createdAt" = Some (VNum (w_now W t / 1000)).
Proof. unfold firstManifest. by simplify_map_eq. Qed.

(** The whole loop, when it returns. *)
Lemma upgraderLoop_returns ctx m versions s evs s' vars' :
  upgraderLoop W U SV ctx m 0 versions {| newVersion := ∅; targetFingerprint := None |} s
    = (evs, s', Returns vars') →
  ∃ ups,
    length ups = length versions
    ∧ evs = expectedUpgraderLog U ctx (prop (cfg_contracts (config s)) "ModuleRegistry")
              (newModuleWrappers m) versions ups
    ∧ match versions with
      | [] => newVersion vars' = ∅
      | v0 :: _ =>
          ∃ lower t,
            semver_lt SV (version v0) TARGET_VERSION = Some lower
            ∧ newVersion vars' = firstManifest W U SV v0 (newModuleWrappers m) lower t
      end.
Proof.
  destruct versions as [| v0 rest]; intros H; simpl in H.
  - run_inv H. by exists [].
  - apply bind_returns in H as (evs1 & s1 & vars1 & evs2 & H1 & H2 & ->).
    pose proof (upgraderStep_config _ _ _ _ _ _ _ _ _ H1) as Hcfg.
    unfold preserves in Hcfg.
    apply upgraderStep_first_returns in H1 as (lower & up & Hlt & Hnv & Hfp & ->).
    eapply upgraderLoop_older_returns in H2 as [-> (ups & Hlen & ->)]; [| | done].
    2: { rewrite Hnv. apply firstManifest_modules. }
    exists (up :: ups). split; [simpl; by rewrite Hlen |]. split.
    + simpl. by rewrite Hfp, Hcfg.
    + by exists lower, (clock s).
Qed.
End Loop.

(** ** The two halves of the script *)

Lemma headCall_silent log :
  Forall (λ e, headCall (event e) = true) log →
  loaded log = [] ∧ uploaded log = [] ∧ upgraders log = [].
Proof.
  unfold loaded, uploaded, upgraders.
  induction 1 as [| [ev o] log Hq _ IH]; [done |].
  destruct IH as (IH1 & IH2 & IH3).
  simpl in Hq. destruct ev; try discriminate; simpl in *;
    rewrite ?IH1, ?IH2, ?IH3; try done.
  destruct a; try discriminate; done.
Qed.

Lemma finishCall_silent log :
  Forall (λ e, finishCall (event e) = true) log →
  newlyDeployed log = [] ∧ configCalls log = [].
Proof.
  unfold newlyDeployed, configCalls.
  induction 1 as [| [ev o] log Hq _ IH]; [done |].
  destruct IH as (IH1 & IH2).
  simpl in Hq. destruct ev; try discriminate; simpl in *;
    rewrite ?IH1; rewrite ?filter_cons; simpl; repeat case_decide; try done.
  destruct a; try discriminate; simpl; by destruct o as [[] |].
Qed.

Section TwoHalves.
Context (W : World) (U : Utilities) (SV : Semver).

Lemma deploy_split network s :
  deploy W U SV network s
  = (prepare W U network ≫= λ '(ctx, m), finish W U SV ctx m) s.
Proof.
  unfold deploy, prepare, finish, mbind, M_bind, bind.
  destruct (warnIfUnsupported network s) as [[e1 s1] [[] | f]]; [| done].
  destruct (setup W network s1) as [[e2 s2] [ctx | f]]; [| done].
  destruct (deployInfrastructure W ctx s2) as [[e3 s3] [infra | f]]; [| done].
  destruct (deployModules W network infra s3) as [[e4 s4] [m | f]]; [| done].
  destruct (updateConfig W infra m s4) as [[e5 s5] [[] | f]]; [| done].
  destruct (configuratorSave W s5) as [[e6 s6] [[] | f]]; [| done].
  destruct (uploadAbis W infra m s6) as [[e7 s7] [[] | f]]; [| done].
  destruct (registerModules W U ctx m s7) as [[e8 s8] [[] | f]]; [| done].
  simpl. destruct (deployUpgraders W U SV ctx m s8) as [[e9 s9] [vars | f]].
  - destruct (uploadVersion W vars s9) as [[e10 s10] r].
    by rewrite !app_nil_r, <- !app_assoc.
  - by rewrite !app_nil_r, <- !app_assoc.
Qed.

Lemma prepare_head network :
  obeys (emitsOnly (λ ev, headCall ev = true)) (prepare W U network).
Proof.
  unfold prepare. unfold_script.
  repeat first [ obeys_step emitsOnly_side | case_decide ].
Qed.

Lemma finish_calls ctx m :
  obeys (emitsOnly (λ ev, finishCall ev = true)) (finish W U SV ctx m).
Proof.
  unfold finish, deployUpgraders, uploadVersion.
  repeat first
    [ apply upgraderLoop_obeys;
        [apply _ | intros; unfold_script; repeat obeys_step emitsOnly_side]
    | obeys_step emitsOnly_side ].
Qed.

Lemma finish_config ctx m : obeys (preserves config) (finish W U SV ctx m).
Proof.
  unfold finish, deployUpgraders, uploadVersion.
  repeat first
    [ apply upgraderLoop_obeys; [apply _ | intros; apply upgraderStep_config]
    | obeys_step preserves_side ].
Qed.

Lemma finish_persisted ctx m : obeys (preserves persisted) (finish W U SV ctx m).
Proof.
  unfold finish, deployUpgraders, uploadVersion.
  repeat first
    [ apply upgraderLoop_obeys; [apply _ | intros; apply upgraderStep_persisted]
    | obeys_step preserves_side ].
Qed.
End TwoHalves.

Section Prepare.
Context (W : World) (U : Utilities).

(** What the first half does to the configuration, however it ends. *)
Lemma prepare_run network s evs s' r :
  persisted s = None →
  prepare W U network s = (evs, s', r) →
  ∃ a b h c,
    (thrown r ≠ None
     ∧ configCalls evs `prefix_of`
         [UpdateModuleAddresses a; UpdateInfrastructureAddresses b; UpdateGitHash h;
          SaveConfig c]
     ∧ (persisted s' = None ∨ persisted s' = Some (config s')))
    ∨ (∃ ctx m mgr,
         r = Returns (ctx, m)
         ∧ configCalls evs =
             [UpdateModuleAddresses a; UpdateInfrastructureAddresses b; UpdateGitHash h;
              SaveConfig c]
         ∧ a = newModuleAddresses m
         ∧ {| event := ManagerSetup network; outcome := Ok (AManager mgr) |} ∈ evs
         ∧ c = updateGitHash h
                 (updateInfrastructureAddresses b
                    (updateModuleAddresses a (configuration mgr)))
         ∧ config s' = c ∧ persisted s' = Some c
         ∧ newlyDeployed evs = newModuleWrappers m).
Proof.
  intros Hfresh H. unfold prepare in H.
  apply bind_inv in H as [(e1 & s1 & [] & t1 & H1 & H & ->) | (f & H1 & ->)];
    apply warnIfUnsupported_run in H1 as ((N1 & _ & _ & _ & C1) & -> & ?);
    [| done].
  apply bind_inv in H as [(e2 & s2 & ctx & t2 & H2 & H & ->) | (f & H2 & ->)];
    pose proof (quiet_silent _ (setup_quiet _ _ _ _ _ _ H2)) as (N2 & _ & _ & _ & C2);
    pose proof (setup_persisted _ _ _ _ _ _ H2) as P2; unfold preserves in P2.
  2: { exists ∅, ∅, EmptyString, noConfig. left. rewrite configCalls_app, C1, C2.
       split; [done |]. split; [apply prefix_nil | left; congruence]. }
  apply setup_returns in H2 as (mgr & Hmgr & G2).
  apply bind_inv in H as [(e3 & s3 & infra & t3 & H3 & H & ->) | (f & H3 & ->)];
    pose proof (quiet_silent _ (deployInfrastructure_quiet _ _ _ _ _ _ H3))
      as (N3 & _ & _ & _ & C3);
    pose proof (deployInfrastructure_persisted _ _ _ _ _ _ H3) as P3;
    pose proof (deployInfrastructure_config _ _ _ _ _ _ H3) as G3;
    unfold preserves in P3, G3.
  2: { exists ∅, ∅, EmptyString, noConfig. left. rewrite !configCalls_app, C1, C2, C3.
       split; [done |]. split; [apply prefix_nil | left; congruence]. }
  apply bind_inv in H as [(e4 & s4 & m & t4 & H4 & H & ->) | (f & H4 & ->)];
    pose proof (deployModules_run _ _ _ _ _ _ _ H4) as (_ & _ & _ & C4);
    pose proof (deployModules_persisted _ _ _ _ _ _ _ H4) as P4;
    pose proof (deployModules_config _ _ _ _ _ _ _ H4) as G4;
    unfold preserves in P4, G4.
  2: { exists ∅, ∅, EmptyString, noConfig. left. rewrite !configCalls_app, C1, C2, C3, C4.
       split; [done |]. split; [apply prefix_nil | left; congruence]. }
  apply deployModules_returns in H4 as N4.
  apply bind_inv in H as [(e5 & s5 & [] & t5 & H5 & H & ->) | (f & H5 & ->)];
    pose proof (updateConfig_persisted _ _ _ _ _ _ _ H5) as P5; unfold preserves in P5;
    apply updateConfig_run in H5
      as (N5 & _ & _ & _ & [(h & Hr & C5 & G5) | (Hthrown & C5)]); try done.
  2: { exists (newModuleAddresses m), (newInfrastructureAddresses infra), EmptyString, noConfig.
       left. rewrite !configCalls_app, C1, C2, C3, C4, C5.
       split; [done |]. split; [by eexists | left; congruence]. }
  apply bind_inv in H as [(e6 & s6 & [] & t6 & H6 & H & ->) | (f & H6 & ->)];
    apply configuratorSave_run in H6
      as (N6 & _ & _ & _ & C6 & G6 & [[Hr6 P6] | [Hthrown P6]]); try done.
  2: { exists (newModuleAddresses m), (newInfrastructureAddresses infra), h, (config s5).
       left. rewrite !configCalls_app, C1, C2, C3, C4, C5, C6.
       split; [done |]. split; [done | left; congruence]. }
  apply bind_inv in H as [(e7 & s7 & [] & t7 & H7 & H & ->) | (f & H7 & ->)];
    pose proof (quiet_silent _ (uploadAbis_quiet _ _ _ _ _ _ _ H7))
      as (N7 & _ & _ & _ & C7);
    pose proof (uploadAbis_persisted _ _ _ _ _ _ _ H7) as P7;
    pose proof (uploadAbis_config _ _ _ _ _ _ _ H7) as G7;
    unfold preserves in P7, G7.
  2: { exists (newModuleAddresses m), (newInfrastructureAddresses infra), h, (config s5).
       left. rewrite !configCalls_app, C1, C2, C3, C4, C5, C6, C7.
       split; [done |]. split; [done | right; congruence]. }
  apply bind_inv in H as [(e8 & s8 & [] & t8 & H8 & H & ->) | (f & H8 & ->)];
    pose proof (quiet_silent _ (registerModules_quiet _ _ _ _ _ _ _ _ H8))
      as (N8 & _ & _ & _ & C8);
    pose proof (registerModules_persisted _ _ _ _ _ _ _ _ H8) as P8;
    pose proof (registerModules_config _ _ _ _ _ _ _ _ H8) as G8;
    unfold preserves in P8, G8.
  2: { exists (newModuleAddresses m), (newInfrastructureAddresses infra), h, (config s5).
       left. rewrite !configCalls_app, C1, C2, C3, C4, C5, C6, C7, C8.
       split; [done |]. split; [done | right; congruence]. }
  apply ret_inv in H as (-> & -> & ->).
  exists (newModuleAddresses m), (newInfrastructureAddresses infra), h, (config s5).
  right. exists ctx, m, mgr.
  rewrite !configCalls_app, C1, C2, C3, C4, C5, C6, C7, C8.
  unfold newlyDeployed in *. rewrite !omap_app, N1, N2, N3, N4, N5, N6, N7, N8.
  repeat split; try done; try congruence; try set_solver.
Qed.
End Prepare.

Section Finish.
Context (W : World) (U : Utilities) (SV : Semver).

(** The second half, however it ends: the load, then the loop, then (when
    the loop returns) the upload. *)
Lemma finish_run ctx m s evs s' r :
  finish W U SV ctx m s = (evs, s', r) →
  (∃ e, evs = [{| event := LoadVersions BACKWARD_COMPATIBILITY; outcome := Err e |}]
        ∧ r = Throws (Rejected e))
  ∨ (∃ versions loopLog s1 s2 r1 rest,
       evs = {| event := LoadVersions BACKWARD_COMPATIBILITY;
                outcome := Ok (AVersions versions) |} :: loopLog ++ rest
       ∧ config s1 = config s
       ∧ upgraderLoop W U SV ctx m 0 versions
           {| newVersion := ∅; targetFingerprint := None |} s1 = (loopLog, s2, r1)
       ∧ ((rest = [] ∧ thrown r1 ≠ None ∧ thrown r ≠ None)
          ∨ (∃ vars o, r1 = Returns vars
                       ∧ rest = [{| event := UploadVersion (newVersion vars);
                                    outcome := o |}]
                       ∧ (r = Returns tt → o = Ok AUnit)))).
Proof.
  intros H. unfold finish, deployUpgraders in H.
  apply bind_inv in H as [(e1 & s1 & vars & t1 & H1 & H & ->) | (f & H1 & ->)].
  - apply bind_inv in H1 as [(e0 & s0 & versions & t0 & H0 & H1 & ->) | (f & H0 & [=])].
    apply remote_returns in H0 as (_ & -> & ->).
    right. exists versions, t0, (tick s), s1, (Returns vars), t1. split; [| split; [done |]].
    { done. }
    split; [done |]. right. unfold uploadVersion in H.
    apply remote_inv in H as [-> [(a & _ & -> & ->) | (e & _ & -> & ->)]].
    + exists vars, (Ok AUnit). by destruct a.
    + by exists vars, (Err e).
  - apply bind_inv in H1 as [(e0 & s0 & versions & t0 & H0 & H1 & ->) | (f0 & H0 & [= <-])].
    + apply remote_returns in H0 as (_ & -> & ->).
      right. exists versions, t0, (tick s), s', (Throws f), []. split; [| split; [done |]].
      { simpl. by rewrite app_nil_r. }
      split; [done |]. by left.
    + apply remote_inv in H0 as [-> [(a & _ & [=] & _) | (e & _ & [= ->] & ->)]].
      left. by exists e.
Qed.

(** The first turn of the loop, however it ends, deploys at most the
    upgrader of the branch for index 0. *)
Lemma upgraderStep_first_run ctx m v vars s evs s' r :
  upgraderStep W U SV ctx m 0 v vars s = (evs, s', r) →
  upgraders evs = []
  ∨ upgraders evs =
      [upgraderArgs (prop (cfg_contracts (config s)) "ModuleRegistry")
         (firstToAdd (newModuleWrappers m))
         (firstToRemove MODULES_TO_DISABLE MODULES_TO_ENABLE v)].
Proof.
  intros H. unfold upgraderStep, firstBranch, deployUpgrader, deployContract,
    executeCall in H.
  rewrite decide_True in H by done. run_inv H; first [by left | by right].
Qed.

(** When the version store answers with no version, the loop does nothing
    and the empty object is uploaded. *)
Lemma finish_nothing_loaded ctx m s evs s' r :
  finish W U SV ctx m s = (evs, s', r) →
  loaded evs = [[]] →
  ∃ o, evs = [ {| event := LoadVersions BACKWARD_COMPATIBILITY;
                  outcome := Ok (AVersions []) |};
               {| event := UploadVersion ∅; outcome := o |} ]
       ∧ (r = Returns tt → o = Ok AUnit).
Proof.
  intros H Hloaded.
  apply finish_run in H
    as [(e & -> & _) | (versions & loopLog & s1 & s2 & r1 & rest & -> & _ & Hloop & Hrest)];
    [done |].
  unfold loaded in Hloaded. simpl in Hloaded. injection Hloaded as -> _.
  simpl in Hloop. apply ret_inv in Hloop as (-> & -> & ->).
  destruct Hrest as [(_ & Hthrown & _) | (vars & o & [= <-] & -> & Ho)]; [done |].
  by exists o.
Qed.

(** When the version store answers with at most one version, at most one
    upgrader is deployed, and it is the one of the branch for index 0. *)
Lemma finish_one_version ctx m s evs s' r :
  finish W U SV ctx m s = (evs, s', r) →
  (∀ versions, versions ∈ loaded evs → (length versions ≤ 1)%nat) →
  upgraders evs = []
  ∨ ∃ v0, loaded evs = [[v0]]
          ∧ upgraders evs =
              [upgraderArgs (prop (cfg_contracts (config s)) "ModuleRegistry")
                 (firstToAdd (newModuleWrappers m))
                 (firstToRemove MODULES_TO_DISABLE MODULES_TO_ENABLE v0)].
Proof.
  intros H Hbound.
  apply finish_run in H
    as [(e & -> & _)
       | (versions & loopLog & s1 & s2 & r1 & rest & -> & Hcfg & Hloop & Hrest)];
    [by left |].
  assert (length versions ≤ 1)%nat as Hlen.
  { apply Hbound. unfold loaded. simpl. constructor. }
  assert (upgraders rest = [] ∧ loaded rest = []) as [Hup Hld].
  { by destruct Hrest as [[-> _] | (vars & o & _ & -> & _)]. }
  pose proof (upgraderLoop_obeys W U SV _ ctx m
                (upgraderStep_calls W U SV ctx m) _ _ _ _ _ _ _ Hloop) as Hcalls.
  apply loopCall_silent in Hcalls as (_ & Hnone & _ & _).
  change (?e :: ?l ++ ?k) with ([e] ++ l ++ k).
  rewrite !loaded_app, !upgraders_app, Hup, Hld, Hnone, !app_nil_r.
  change (loaded [_]) with [versions]. change (upgraders [_]) with (@nil (list Value)).
  destruct versions as [| v0 [| v1 rest']]; [| | simpl in Hlen; lia].
  - simpl in Hloop. apply ret_inv in Hloop as (-> & _ & _). by left.
  - simpl in Hloop.
    apply bind_inv in Hloop as [(e1 & s3 & vars & t1 & H1 & H2 & ->) | (f & H1 & ->)].
    + apply ret_inv in H2 as (-> & _ & _). rewrite app_nil_r.
      apply upgraderStep_first_run in H1 as [-> | ->]; [by left |].
      right. exists v0. by rewrite Hcfg.
    + apply upgraderStep_first_run in H1 as [-> | ->]; [by left |].
      right. exists v0. by rewrite Hcfg.
Qed.

(** The second half, when it returns. *)
Lemma finish_returns ctx m s evs s' :
  finish W U SV ctx m s = (evs, s', Returns tt) →
  ∃ versions ups manifest,
    length ups = length versions
    ∧ evs = {| event := LoadVersions BACKWARD_COMPATIBILITY;
               outcome := Ok (AVersions versions) |}
            :: expectedUpgraderLog U ctx (prop (cfg_contracts (config s)) "ModuleRegistry")
                 (newModuleWrappers m) versions ups
            ++ [{| event := UploadVersion manifest; outcome := Ok AUnit |}]
    ∧ match versions with
      | [] => manifest = ∅
      | v0 :: _ =>
          ∃ lower t,
            semver_lt SV (version v0) TARGET_VERSION = Some lower
            ∧ manifest = firstManifest W U SV v0 (newModuleWrappers m) lower t
      end.
Proof.
  intros H.
  apply finish_run in H
    as [(e & _ & [=])
       | (versions & loopLog & s1 & s2 & r1 & rest & -> & Hcfg & Hloop & Hrest)].
  destruct Hrest as [(_ & _ & Hthrown) | (vars & o & -> & -> & Ho)]; [done |].
  rewrite (Ho eq_refl).
  apply upgraderLoop_returns in Hloop as (ups & Hlen & -> & Hvars).
  exists versions, ups, (newVersion vars). rewrite Hcfg. done.
Qed.
End Finish.

(** ** The log of the upgrader loop *)

Lemma upgraderEntries_calls U ctx registry fp v toAdd toRemove up :
  Forall (λ e, loopCall (event e) = true)
         (upgraderEntries U ctx registry fp v toAdd toRemove up).
Proof. unfold upgraderEntries. by repeat constructor. Qed.

Lemma olderEntries_calls U ctx registry fp (f g : Version → list ModuleDesc) rest :
  ∀ ups,
    Forall (λ e, loopCall (event e) = true)
      (concat (zip_with (λ v up, upgraderEntries U ctx registry fp v (f v) (g v) up)
                 rest ups)).
Proof.
  induction rest as [| v rest IH]; intros [| up ups]; [by constructor .. |].
  cbn [zip_with concat]. apply Forall_app.
  split; [apply upgraderEntries_calls | apply IH].
Qed.

Lemma expectedUpgraderLog_calls U ctx registry ws versions ups :
  Forall (λ e, loopCall (event e) = true)
         (expectedUpgraderLog U ctx registry ws versions ups).
Proof.
  unfold expectedUpgraderLog.
  destruct versions as [| v0 rest], ups as [| up0 ups]; [by constructor .. |].
  apply Forall_app. split; [apply upgraderEntries_calls | apply olderEntries_calls].
Qed.

Lemma olderEntries_upgraders U ctx registry fp (f g : Version → list ModuleDesc) rest :
  ∀ ups,
    length ups = length rest →
    upgraders
      (concat (zip_with (λ v up, upgraderEntries U ctx registry fp v (f v) (g v) up)
                 rest ups))
    = (λ v, upgraderArgs registry (f v) (g v)) <$> rest.
Proof.
  induction rest as [| v rest IH]; intros [| up ups] Hlen; try done.
  cbn [zip_with concat]. rewrite upgraders_app, IH by (simpl in Hlen; lia). done.
Qed.

Lemma expectedUpgraderLog_upgraders U ctx registry ws versions ups :
  length ups = length versions →
  upgraders (expectedUpgraderLog U ctx registry ws versions ups)
  = expectedUpgraderArgs registry ws versions.
Proof.
  unfold expectedUpgraderLog, expectedUpgraderArgs.
  destruct versions as [| v0 rest], ups as [| up0 ups]; try done.
  intros Hlen. cbv zeta.
  rewrite upgraders_app, olderEntries_upgraders by (simpl in Hlen; lia). done.
Qed.

(** ** The whole run *)

Section Run.
Context (W : World) (U : Utilities) (SV : Semver).

Lemma deploy_cases network s evs s' r :
  deploy W U SV network s = (evs, s', r) →
  (∃ f, prepare W U network s = (evs, s', Throws f) ∧ r = Throws f)
  ∨ (∃ head s1 ctx m tail,
       prepare W U network s = (head, s1, Returns (ctx, m))
       ∧ finish W U SV ctx m s1 = (tail, s', r)
       ∧ evs = head ++ tail).
Proof.
  rewrite deploy_split. intros H.
  apply bind_inv in H as [(head & s1 & [ctx m] & tail & H1 & H2 & ->) | (f & H1 & ->)].
  - right. by exists head, s1, ctx, m, tail.
  - left. by exists f.
Qed.

(** The first half, when it returns. *)
Lemma prepare_returns network head s1 ctx m :
  prepare W U network initial = (head, s1, Returns (ctx, m)) →
  loaded head = [] ∧ uploaded head = [] ∧ upgraders head = []
  ∧ newlyDeployed head = newModuleWrappers m
  ∧ persisted s1 = Some (config s1).
Proof.
  intros H.
  pose proof (headCall_silent _ (prepare_head _ _ _ _ _ _ _ H)) as (L & P & G).
  apply prepare_run in H as (a & b & h & c & [(Hthrown & _) | Hok]); [done | | done].
  destruct Hok as (ctx' & m' & mgr & [= <- <-] & _ & _ & _ & _ & Hc & Hp & Hnew).
  repeat split; try done. congruence.
Qed.

(** Every manifest handed to the version store is the empty object when no
    version was loaded, and else the one built from the most recent one. *)
Lemma deploy_uploaded network evs s' r manifest :
  deploy W U SV network initial = (evs, s', r) →
  manifest ∈ uploaded evs →
  uploaded evs = [manifest]
  ∧ ∃ versions,
      loaded evs = [versions]
      ∧ match versions with
        | [] => manifest = ∅
        | v0 :: _ =>
            ∃ lower t,
              semver_lt SV (version v0) TARGET_VERSION = Some lower
              ∧ manifest = firstManifest W U SV v0 (newlyDeployed evs) lower t
        end.
Proof.
  intros H Hin.
  apply deploy_cases in H
    as [(f & H & ->) | (head & s1 & ctx & m & tail & H1 & H2 & ->)].
  { pose proof (headCall_silent _ (prepare_head _ _ _ _ _ _ _ H)) as (_ & P & _).
    rewrite P in Hin. by apply elem_of_nil in Hin. }
  apply prepare_returns in H1 as (L1 & P1 & _ & N1 & _).
  pose proof (finishCall_silent _ (finish_calls _ _ _ _ _ _ _ _ _ H2)) as (N2 & _).
  rewrite uploaded_app, loaded_app, newlyDeployed_app, P1, L1, N1, N2, app_nil_r in *.
  simpl in *.
  apply finish_run in H2
    as [(e & -> & _)
       | (versions & loopLog & s2 & s3 & r1 & rest & -> & _ & Hloop & Hrest)].
  { by apply elem_of_nil in Hin. }
  pose proof (upgraderLoop_obeys W U SV _ ctx m
                (upgraderStep_calls W U SV ctx m) _ _ _ _ _ _ _ Hloop) as Hcalls.
  apply loopCall_silent in Hcalls as (_ & L2 & P2 & _).
  change (?e :: ?l ++ ?k) with ([e] ++ l ++ k) in *.
  rewrite !uploaded_app, !loaded_app, P2, L2 in *. simpl in *.
  destruct Hrest as [(-> & _) | (vars & o & -> & -> & _)].
  { by apply elem_of_nil in Hin. }
  apply list_elem_of_singleton in Hin as ->. split; [done |].
  exists versions. split; [done |].
  apply upgraderLoop_returns in Hloop as (ups & _ & _ & Hvars).
  destruct versions as [| v0 rest]; [done |].
  destruct Hvars as (lower & t & Hlt & Hnv). by exists lower, t.
Qed.

(** The run, when it returns. *)
Lemma deploy_returns network evs s' :
  deploy W U SV network initial = (evs, s', Returns tt) →
  ∃ head ctx versions ups manifest,
    evs = head
          ++ {| event := LoadVersions BACKWARD_COMPATIBILITY;
                outcome := Ok (AVersions versions) |}
          :: expectedUpgraderLog U ctx
               (prop (cfg_contracts (config s')) "ModuleRegistry")
               (newlyDeployed evs) versions ups
          ++ [{| event := UploadVersion manifest; outcome := Ok AUnit |}]
    ∧ loaded head = [] ∧ uploaded head = [] ∧ upgraders head = []
    ∧ length (newlyDeployed evs) = 4%nat
    ∧ length ups = length versions.
Proof.
  intros H.
  apply deploy_cases in H
    as [(f & _ & [=]) | (head & s1 & ctx & m & tail & H1 & H2 & ->)].
  apply prepare_returns in H1 as (L1 & P1 & G1 & N1 & _).
  pose proof (finishCall_silent _ (finish_calls _ _ _ _ _ _ _ _ _ H2)) as (N2 & _).
  pose proof (finish_config _ _ _ _ _ _ _ _ _ H2) as Hcfg. unfold preserves in Hcfg.
  apply finish_returns in H2 as (versions & ups & manifest & Hlen & -> & _).
  exists head, ctx, versions, ups, manifest.
  rewrite newlyDeployed_app, N1, N2, app_nil_r, Hcfg. done.
Qed.
(** What the log of a run that returns shows. *)
Lemma deploy_observed network evs s' :
  deploy W U SV network initial = (evs, s', Returns tt) →
  ∃ versions manifest,
    loaded evs = [versions] ∧ uploaded evs = [manifest]
    ∧ upgraders evs
      = expectedUpgraderArgs (prop (cfg_contracts (config s')) "ModuleRegistry")
          (newlyDeployed evs) versions
    ∧ length (newlyDeployed evs) = 4%nat.
Proof.
  intros H.
  destruct (deploy_returns _ _ _ H)
    as (head & ctx & versions & ups & manifest & Hevs & L & P & G & Hfour & Hlen).
  exists versions, manifest. rewrite Hevs at 1 2 3.
  change (?e :: ?l ++ ?k) with ([e] ++ l ++ k).
  pose proof (loopCall_silent _
    (expectedUpgraderLog_calls U ctx (prop (cfg_contracts (config s')) "ModuleRegistry")
       (newlyDeployed evs) versions ups)) as (_ & L2 & P2 & _).
  rewrite !loaded_app, !uploaded_app, !upgraders_app, L, P, G, L2, P2.
  rewrite expectedUpgraderLog_upgraders by done. simpl. by rewrite app_nil_r.
Qed.
(** The manifest of a run that returns lists the target made from the
    most recent version. *)
Lemma deploy_target network evs s' v0 rest :
  deploy W U SV network initial = (evs, s', Returns tt) →
  loaded evs = [v0 :: rest] →
  ∃ manifest,
    uploaded evs = [manifest]
    ∧ manifest !! "modules"
      = Some (VModules
                (modulesInNewVersion MODULES_TO_DISABLE MODULES_TO_ENABLE v0
                   (newlyDeployed evs))).
Proof.
  intros H Hloaded.
  destruct (deploy_observed _ _ _ H) as (versions & manifest & _ & P & _).
  exists manifest. split; [done |].
  assert (manifest ∈ uploaded evs) as Hin by (rewrite P; constructor).
  destruct (deploy_uploaded _ _ _ _ _ H Hin) as (_ & vs & Hvs & Hm).
  rewrite Hloaded in Hvs. injection Hvs as <-.
  destruct Hm as (lower & t & _ & ->). apply firstManifest_modules.
Qed.
(** A manifest handed to the version store is empty or carries the
    fingerprint of the modules it lists. *)
Lemma uploaded_fingerprint network evs s' r manifest :
  deploy W U SV network initial = (evs, s', r) →
  manifest ∈ uploaded evs →
  manifest = ∅
  ∨ ∃ target,
      manifest !! "modules" = Some (VModules target)
      ∧ manifest !! "fingerprint" = Some (VStr (versionFingerprint U target)).
Proof.
  intros H Hin.
  destruct (deploy_uploaded _ _ _ _ _ H Hin) as (_ & [| v0 rest] & _ & Hm); [by left |].
  destruct Hm as (lower & t & _ & ->). right. eexists. split.
  - apply firstManifest_modules.
  - apply firstManifest_fingerprint.
Qed.
End Run.

(** ** The network *)

Section Twin.
Context (W : World) (U : Utilities) (SV : Semver).

Lemma allowListed_allowed network :
  allowListed network ∈ ["kovan"; "kovan-fork"; "staging"; "prod"].
Proof.
  unfold allowListed. case_decide;
    refine (proj1 (bool_decide_eq_true _) _); vm_compute; reflexivity.
Qed.

Lemma allowListed_same_turn network :
  network ∈ ["test"; "staging"; "prod"]
  ↔ allowListed network ∈ ["test"; "staging"; "prod"].
Proof.
  unfold allowListed. case_decide as Hin.
  - split; [| done]. intros _.
    refine (proj1 (bool_decide_eq_true _) _). vm_compute. reflexivity.
  - split; [done |]. intros Hk. exfalso. revert Hk.
    refine (proj1 (bool_decide_eq_false _) _). vm_compute. reflexivity.
Qed.

Lemma deployModules_twin n n' :
  (n ∈ ["test"; "staging"; "prod"] ↔ n' ∈ ["test"; "staging"; "prod"]) →
  deployModules W n = deployModules W n'.
Proof.
  intros Hiff. unfold deployModules.
  destruct (decide (n ∈ ["test"; "staging"; "prod"])) as [Hin | Hout],
           (decide (n' ∈ ["test"; "staging"; "prod"])) as [Hin' | Hout'];
    try reflexivity; tauto.
Qed.

Lemma setup_twin n n' s evs s' r :
  setup W n s = (evs, s', r) →
  ∃ o rest,
    evs = {| event := ManagerSetup n; outcome := o |} :: rest
    ∧ (w_setup W (clock s) n' = w_setup W (clock s) n →
       setup W n' s = ({| event := ManagerSetup n'; outcome := o |} :: rest, s', r)).
Proof.
  intros H. unfold setup in *.
  apply bind_inv in H as [(e1 & s1 & mgr & t1 & H1 & H & ->) | (f & H1 & ->)].
  - apply remote_returns in H1 as (Hans & -> & ->).
    exists (Ok (AManager mgr)), t1. split; [done |]. intros Heq.
    eapply (bind_run_returns _ _ _ [_]); [| exact H].
    unfold remote. by rewrite Heq, Hans.
  - apply remote_inv in H1 as [-> [(a & _ & [=] & _) | (e & Hans & [= ->] & ->)]].
    exists (Err e), []. split; [done |]. intros Heq.
    apply bind_run_throws. unfold remote. by rewrite Heq, Hans.
Qed.
End Twin.

(** ** The version store *)

Section Loads.
Context (W : World) (U : Utilities) (SV : Semver).

(** The version store is asked once, for [BACKWARD_COMPATIBILITY] versions. *)
Lemma deploy_loaded network evs s' r versions :
  deploy W U SV network initial = (evs, s', r) →
  versions ∈ loaded evs →
  loaded evs = [versions]
  ∧ {| event := LoadVersions BACKWARD_COMPATIBILITY;
       outcome := Ok (AVersions versions) |} ∈ evs.
Proof.
  intros H Hin.
  apply deploy_cases in H
    as [(f & H & ->) | (head & s1 & ctx & m & tail & H1 & H2 & ->)].
  { pose proof (headCall_silent _ (prepare_head _ _ _ _ _ _ _ H)) as (L & _ & _).
    rewrite L in Hin. by apply elem_of_nil in Hin. }
  pose proof (headCall_silent _ (prepare_head _ _ _ _ _ _ _ H1)) as (L1 & _ & _).
  rewrite loaded_app, L1 in *. simpl in *.
  apply finish_run in H2
    as [(e & -> & _)
       | (versions' & loopLog & s2 & s3 & r1 & rest & -> & _ & Hloop & Hrest)].
  { by apply elem_of_nil in Hin. }
  pose proof (upgraderLoop_obeys W U SV _ ctx m
                (upgraderStep_calls W U SV ctx m) _ _ _ _ _ _ _ Hloop) as Hcalls.
  apply loopCall_silent in Hcalls as (_ & L2 & _ & _).
  assert (loaded rest = []) as L3.
  { by destruct Hrest as [(-> & _) | (vars & o & _ & -> & _)]. }
  change (?e :: ?l ++ ?k) with ([e] ++ l ++ k) in *.
  rewrite !loaded_app, L2, L3 in *. simpl in *.
  apply list_elem_of_singleton in Hin as ->. split; [done |].
  apply elem_of_app. right. constructor.
Qed.

(** With at most one version to go through, the loop is its first turn:
    the branch for the later indices is not there. *)
Lemma upgraderLoop_short ctx m versions vars s :
  (length versions ≤ 1)%nat →
  upgraderLoop W U SV ctx m 0 versions vars s
  = match versions with
    | [] => ret vars s
    | v :: _ =>
        ('(toAdd, toRemove, vars') ← firstBranch W U SV v m vars;
         deployUpgrader W U ctx v toAdd toRemove vars' ;;
         ret vars') s
    end.
Proof.
  destruct versions as [| v [| v' rest]]; simpl; [done | | lia]. intros _.
  unfold upgraderStep. rewrite decide_True by done.
  unfold mbind, M_bind, bind.
  destruct (firstBranch W U SV v m vars s) as [[e1 s1] [[[toAdd toRemove] vars'] | f]];
    [| done].
  destruct (deployUpgrader W U ctx v toAdd toRemove vars' s1) as [[e2 s2] [[] | f]];
    simpl; by rewrite ?app_nil_r.
Qed.
End Loads.

(** ** The sample world *)

Lemma agree_by_computation target v :
  Forall (λ x, Forall (λ y, address x = address y → name x = name y) target)
         (modules v) →
  addressesAgree target v.
Proof.
  intros Hall x y Hx Hy. rewrite Forall_forall in Hall.
  specialize (Hall x Hx). rewrite Forall_forall in Hall. by apply Hall.
Qed.

Lemma modulesInNewVersion_perm dis en v1 v2 ws1 ws2 :
  modules v1 ≡ₚ modules v2 →
  moduleOfWrapper <$> ws1 ≡ₚ moduleOfWrapper <$> ws2 →
  modulesInNewVersion dis en v1 ws1 ≡ₚ modulesInNewVersion dis en v2 ws2.
Proof.
  intros Hv Hws. unfold modulesInNewVersion, toKeep, firstToAdd.
  by rewrite Hv, Hws.
Qed.

Lemma checksum_perm l k : l ≡ₚ k → Sample.checksum l = Sample.checksum k.
Proof.
  unfold Sample.checksum. induction 1; simpl; try congruence; lia.
Qed.

(** * The claims *)

(** C1. For the most recent historical version (the one at index 0 of the
    loaded versions), the module set of the new manifest is the historical
    set without the modules named in the disable-list or in the
    enable-list, together with the four newly deployed modules; on the
    example of the specification (historical [A@0x1, B@0x2, C@0x3],
    disable-list [B], enable-list [C], newly deployed [C@0x9, D@0x8]) it is
    [A@0x1, C@0x9, D@0x8]. *)
Theorem C1_target_module_set :
  (∀ dis en v ws x,
      x ∈ modulesInNewVersion dis en v ws
      ↔ (x ∈ modules v ∧ (name x ∉ dis) ∧ (name x ∉ en)) ∨ x ∈ (moduleOfWrapper <$> ws))
  ∧ modulesInNewVersion ["B"] ["C"] Sample.specV1 Sample.specDeployed
    = Sample.specTarget
  ∧ (∀ W U SV network evs s' v0 rest,
        deploy W U SV network initial = (evs, s', Returns tt) →
        loaded evs = [v0 :: rest] →
        length (newlyDeployed evs) = 4%nat
        ∧ ∃ manifest,
            uploaded evs = [manifest]
            ∧ manifest !! "modules"
              = Some (VModules
                        (modulesInNewVersion MODULES_TO_DISABLE MODULES_TO_ENABLE v0
                           (newlyDeployed evs)))).
Proof.
  split; [apply elem_of_modulesInNewVersion |]. split; [by vm_compute |].
  intros W U SV network evs s' v0 rest H Hloaded. split.
  - by destruct (deploy_observed _ _ _ _ _ _ H) as (_ & _ & _ & _ & _ & Hfour).
  - apply (deploy_target W U SV network evs s' v0 rest H Hloaded).
Qed.

(** Witness of C1: the sample run on kovan with one published version. *)
Lemma C1_witness :
  length (newlyDeployed Sample.runOne.1.1) = 4%nat
  ∧ ∃ manifest,
      uploaded Sample.runOne.1.1 = [manifest]
      ∧ manifest !! "modules"
        = Some (VModules
                  (modulesInNewVersion MODULES_TO_DISABLE MODULES_TO_ENABLE Sample.v15
                     (newlyDeployed Sample.runOne.1.1))).
Proof.
  apply (proj2 (proj2 C1_target_module_set)
           (Sample.world [Sample.v15] None) Sample.utilities Sample.semver "kovan"
           _ Sample.runOne.1.2 Sample.v15 []).
  - vm_compute. reflexivity.
  - vm_compute. reflexivity.
Defined.

(** C2 as stated fails: an older version that lists the address of a kept
    module under another name is neither asked to drop its entry nor to
    add the target's, so its diff does not reach the target as a set of
    (name, address) pairs. *)
Lemma C2_counterexample :
  Sample.runRenamed.2 = Returns tt
  ∧ loaded Sample.runRenamed.1.1 = [[Sample.v15; Sample.renamed]]
  ∧ ¬ (disjointModules
         (olderToAdd
            (modulesInNewVersion MODULES_TO_DISABLE MODULES_TO_ENABLE Sample.v15
               (newlyDeployed Sample.runRenamed.1.1)) Sample.renamed)
         (olderToRemove
            (modulesInNewVersion MODULES_TO_DISABLE MODULES_TO_ENABLE Sample.v15
               (newlyDeployed Sample.runRenamed.1.1)) Sample.renamed)
       ∧ diffReachesTarget
           (modulesInNewVersion MODULES_TO_DISABLE MODULES_TO_ENABLE Sample.v15
              (newlyDeployed Sample.runRenamed.1.1)) Sample.renamed).
Proof.
  split; [by vm_compute |]. split; [by vm_compute |].
  intros [_ Hsame].
  specialize (Hsame {| name := "GuardianManager"; address := "0xb1" |}).
  destruct Hsame as [_ Hback].
  assert ({| name := "GuardianManager"; address := "0xb1" |}
          ∈ modulesInNewVersion MODULES_TO_DISABLE MODULES_TO_ENABLE Sample.v15
              (newlyDeployed Sample.runRenamed.1.1))
    as Hin.
  { refine (proj1 (bool_decide_eq_true _) _). by vm_compute. }
  apply Hback in Hin. revert Hin.
  refine (proj1 (bool_decide_eq_false _) _). by vm_compute.
Qed.

(** C2, amended. In a run that returns, the target module set is the one
    made from the version at index 0, and for every older version (index
    above 0) the upgrader is built from the diff against that target: the
    modules to add and to remove are disjoint as (name, address) sets; the
    modules to add together with the version's modules that are not removed
    have the addresses of the target; and they are the target as a set of
    (name, address) pairs whenever no address carries one name in the
    version and another in the target. *)
Theorem C2_older_diff W U SV network evs s' v0 rest :
  deploy W U SV network initial = (evs, s', Returns tt) →
  loaded evs = [v0 :: rest] →
  let target :=
    modulesInNewVersion MODULES_TO_DISABLE MODULES_TO_ENABLE v0 (newlyDeployed evs) in
  (∃ manifest, uploaded evs = [manifest]
               ∧ manifest !! "modules" = Some (VModules target))
  ∧ ∀ i v,
      rest !! i = Some v →
      upgraders evs !! S i
      = Some (upgraderArgs (prop (cfg_contracts (config s')) "ModuleRegistry")
                (olderToAdd target v) (olderToRemove target v))
      ∧ disjointModules (olderToAdd target v) (olderToRemove target v)
      ∧ (∀ a, a ∈ address <$> (olderToAdd target v
                               ++ list_difference (modules v) (olderToRemove target v))
              ↔ a ∈ address <$> target)
      ∧ (addressesAgree target v → diffReachesTarget target v).
Proof.
  intros H Hloaded target. split.
  - destruct (deploy_target _ _ _ _ _ _ _ _ H Hloaded) as (manifest & Hup & Hm).
    by exists manifest.
  - intros i v Hv.
    destruct (deploy_observed _ _ _ _ _ _ H) as (versions & manifest & L & _ & G & _).
    rewrite Hloaded in L. injection L as <-.
    split; [| split; [apply older_diff_disjoint |
              split; [apply older_diff_reaches_target_addresses
                     | apply older_diff_reaches_target]]].
    rewrite G. unfold expectedUpgraderArgs.
    change ((?x :: ?l) !! S ?n) with (l !! n).
    rewrite list_lookup_fmap. fold target. by rewrite Hv.
Qed.

(** Witness of C2: the sample run with two published versions; the older
    one shares two addresses with the target, under the same names. *)
Lemma C2_witness :
  upgraders Sample.runTwo.1.1 !! 1%nat
  = Some (upgraderArgs
            (prop (cfg_contracts (config Sample.runTwo.1.2)) "ModuleRegistry")
            (olderToAdd
               (modulesInNewVersion MODULES_TO_DISABLE MODULES_TO_ENABLE Sample.v15
                  (newlyDeployed Sample.runTwo.1.1)) Sample.v14)
            (olderToRemove
               (modulesInNewVersion MODULES_TO_DISABLE MODULES_TO_ENABLE Sample.v15
                  (newlyDeployed Sample.runTwo.1.1)) Sample.v14))
  ∧ diffReachesTarget
      (modulesInNewVersion MODULES_TO_DISABLE MODULES_TO_ENABLE Sample.v15
         (newlyDeployed Sample.runTwo.1.1)) Sample.v14.
Proof.
  assert (deploy (Sample.world [Sample.v15; Sample.v14] None) Sample.utilities
            Sample.semver "kovan" initial
          = (Sample.runTwo.1.1, Sample.runTwo.1.2, Returns tt)) as Hrun.
  { vm_compute. reflexivity. }
  assert (loaded Sample.runTwo.1.1 = [Sample.v15 :: [Sample.v14]]) as Hloaded.
  { vm_compute. reflexivity. }
  destruct (C2_older_diff _ _ _ _ _ _ _ _ Hrun Hloaded) as [_ Hall].
  destruct (Hall 0%nat Sample.v14 eq_refl) as (Hargs & _ & _ & Hreach).
  split; [exact Hargs |].
  apply Hreach. apply agree_by_computation.
  refine (proj1 (bool_decide_eq_true _) _). vm_compute. reflexivity.
Defined.

(** C3. In a run that loaded a version and reaches the upload, the manifest
    stores a fingerprint next to its module list, and it is the fingerprint
    function applied to that very list, the target made from the most
    recent version and the modules deployed in the run: nothing else of the
    run goes into it.  So two runs, in any two worlds and on any two
    networks, whose manifests list the same modules store the same
    fingerprint; and when the fingerprint function does not depend on the
    order of the modules, so do two runs whose manifests list the same
    modules in different orders, as they do when the most recent versions
    and the deployed modules are the same up to order. *)
Theorem C3_fingerprint_deterministic U W1 SV1 n1 evs1 s1 r1 W2 SV2 n2 evs2 s2 r2
    m1 m2 v1 rest1 v2 rest2 :
  deploy W1 U SV1 n1 initial = (evs1, s1, r1) →
  deploy W2 U SV2 n2 initial = (evs2, s2, r2) →
  m1 ∈ uploaded evs1 →
  m2 ∈ uploaded evs2 →
  loaded evs1 = [v1 :: rest1] →
  loaded evs2 = [v2 :: rest2] →
  ∃ l1 l2,
    l1 = modulesInNewVersion MODULES_TO_DISABLE MODULES_TO_ENABLE v1 (newlyDeployed evs1)
    ∧ l2 = modulesInNewVersion MODULES_TO_DISABLE MODULES_TO_ENABLE v2 (newlyDeployed evs2)
    ∧ m1 !! "modules" = Some (VModules l1)
    ∧ m1 !! "fingerprint" = Some (VStr (versionFingerprint U l1))
    ∧ m2 !! "modules" = Some (VModules l2)
    ∧ m2 !! "fingerprint" = Some (VStr (versionFingerprint U l2))
    ∧ (l1 = l2 → m1 !! "fingerprint" = m2 !! "fingerprint")
    ∧ ((∀ l k, l ≡ₚ k → versionFingerprint U l = versionFingerprint U k) →
       (l1 ≡ₚ l2 → m1 !! "fingerprint" = m2 !! "fingerprint")
       ∧ (modules v1 ≡ₚ modules v2 →
          moduleOfWrapper <$> newlyDeployed evs1 ≡ₚ moduleOfWrapper <$> newlyDeployed evs2 →
          m1 !! "fingerprint" = m2 !! "fingerprint")).
Proof.
  intros H1 H2 Hin1 Hin2 L1 L2.
  destruct (deploy_uploaded _ _ _ _ _ _ _ _ H1 Hin1) as (_ & vs1 & L1' & M1).
  destruct (deploy_uploaded _ _ _ _ _ _ _ _ H2 Hin2) as (_ & vs2 & L2' & M2).
  rewrite L1 in L1'. injection L1' as <-. rewrite L2 in L2'. injection L2' as <-.
  destruct M1 as (lower1 & t1 & _ & ->). destruct M2 as (lower2 & t2 & _ & ->).
  eexists _, _. split; [reflexivity |]. split; [reflexivity |].
  rewrite !firstManifest_modules, !firstManifest_fingerprint.
  repeat split; try done.
  - by intros ->.
  - intros Hperm. by rewrite (H _ _ Hperm).
  - intros Hv Hws. by rewrite (H _ _ (modulesInNewVersion_perm _ _ _ _ _ _ Hv Hws)).
Qed.

(** Witness of C3: two sample runs on different networks, with different
    version stores, whose most recent versions list the same modules in
    different orders; a fingerprint is stored, and it is the same. *)
Lemma C3_witness :
  default ∅ (head (uploaded Sample.runOne.1.1)) !! "fingerprint"
  = default ∅ (head (uploaded Sample.runReordered.1.1)) !! "fingerprint"
  ∧ default ∅ (head (uploaded Sample.runOne.1.1)) !! "fingerprint" ≠ None.
Proof.
  assert (deploy (Sample.world [Sample.v15] None) Sample.utilities Sample.semver
            "kovan" initial
          = (Sample.runOne.1.1, Sample.runOne.1.2, Returns tt)) as H1.
  { vm_compute. reflexivity. }
  assert (deploy (Sample.world [Sample.v15'; Sample.v14] None) Sample.utilities
            Sample.semver "staging" initial
          = (Sample.runReordered.1.1, Sample.runReordered.1.2, Returns tt)) as H2.
  { vm_compute. reflexivity. }
  assert (default ∅ (head (uploaded Sample.runOne.1.1)) ∈ uploaded Sample.runOne.1.1)
    as Hin1.
  { refine (proj1 (bool_decide_eq_true _) _). vm_compute. reflexivity. }
  assert (default ∅ (head (uploaded Sample.runReordered.1.1))
          ∈ uploaded Sample.runReordered.1.1) as Hin2.
  { refine (proj1 (bool_decide_eq_true _) _). vm_compute. reflexivity. }
  assert (loaded Sample.runOne.1.1 = [[Sample.v15]]) as L1.
  { vm_compute. reflexivity. }
  assert (loaded Sample.runReordered.1.1 = [[Sample.v15'; Sample.v14]]) as L2.
  { vm_compute. reflexivity. }
  destruct (C3_fingerprint_deterministic _ _ _ _ _ _ _ _ _ _ _ _ _ _ _ _ _ _ _
              H1 H2 Hin1 Hin2 L1 L2)
    as (l1 & l2 & _ & _ & _ & F1 & _ & _ & _ & Horder).
  split; [| by rewrite F1].
  apply Horder.
  - intros l k Hlk. simpl. by rewrite (checksum_perm l k Hlk).
  - refine (proj1 (bool_decide_eq_true _) _). vm_compute. reflexivity.
  - vm_compute. reflexivity.
Defined.

(** C4. When a call on a collaborator fails during [deploy], its error is
    what [deploy] throws, at once: the failed call is the last one of the
    log (no later step runs, and nothing is undone or compensated), and
    every call before it succeeded. *)
Theorem C4_failure_aborts W U SV network evs s' r :
  deploy W U SV network initial = (evs, s', r) →
  (∀ i ev e,
      evs !! i = Some {| event := ev; outcome := Err e |} →
      r = Throws (Rejected e) ∧ length evs = S i)
  ∧ (∀ e, r = Throws (Rejected e) →
          ∃ ev, last evs = Some {| event := ev; outcome := Err e |}).
Proof.
  intros H. pose proof (deploy_stops W U SV network _ _ _ _ H) as Hstop.
  unfold stopsAtFailure in Hstop.
  assert (∀ l i ev e, Forall succeeded l →
            l !! i = Some {| event := ev; outcome := Err e |} → False) as Hclean.
  { intros l i ev e Hall Hi. rewrite Forall_lookup in Hall.
    destruct (Hall _ _ Hi) as [a Ha]. done. }
  destruct r as [[] | [e0 | msg]]; simpl in Hstop.
  - split; [| done]. intros i ev e Hi. by destruct (Hclean _ _ _ _ Hstop Hi).
  - destruct Hstop as (pre & ev0 & -> & Hpre). split.
    + intros i ev e Hi.
      destruct (decide (i < length pre)%nat) as [Hlt | Hge].
      * rewrite lookup_app_l in Hi by done. by destruct (Hclean _ _ _ _ Hpre Hi).
      * rewrite lookup_app_r in Hi by lia.
        destruct (i - length pre)%nat as [| j] eqn:Hj; [| done].
        injection Hi as <- <-. rewrite length_app. simpl. split; [done | lia].
    + intros e [= <-]. exists ev0. by rewrite last_snoc.
  - split; [| done]. intros i ev e Hi. by destruct (Hclean _ _ _ _ Hstop Hi).
Qed.

(** Witness of C4: the sample run in which the deployment of the
    MakerRegistry (the sixth call) is rejected. *)
Lemma C4_witness :
  Sample.runRejected.2 = Throws (Rejected "rejected")
  ∧ length Sample.runRejected.1.1 = 6%nat.
Proof.
  assert (deploy (Sample.world [Sample.v15] (Some 5%nat)) Sample.utilities Sample.semver
            "kovan" initial
          = (Sample.runRejected.1.1, Sample.runRejected.1.2, Sample.runRejected.2))
    as Hrun.
  { vm_compute. reflexivity. }
  destruct (C4_failure_aborts _ _ _ _ _ _ _ Hrun) as [Hstop _].
  apply (Hstop 5%nat (Deploy MakerRegistry [VStr "0xavat"]) "rejected").
  vm_compute. reflexivity.
Defined.

(** C5 as stated fails: the script does change what it does with the
    network.  With one deploy-manager context for both, the run on test,
    which is outside the allow-list, constructs the TransferManager with the
    previous TransferManager of the configuration, and the run on kovan,
    which is on it, with the zero address (line 115). *)
Lemma C5_counterexample :
  ("test" ∉ ["kovan"; "kovan-fork"; "staging"; "prod"])
  ∧ "kovan" ∈ ["kovan"; "kovan-fork"; "staging"; "prod"]
  ∧ w_setup (Sample.world [Sample.v15] None) 0 "test"
    = w_setup (Sample.world [Sample.v15] None) 0 "kovan"
  ∧ Sample.runTest.2 = Returns tt
  ∧ Sample.runOne.2 = Returns tt
  ∧ last <$> deployments TransferManager Sample.runTest.1.1
    = [Some (prop (cfg_modules Sample.configurationFile) "TransferManager")]
  ∧ last <$> deployments TransferManager Sample.runOne.1.1
    = [Some (VStr zeroAddress)]
  ∧ deployments TransferManager Sample.runTest.1.1
    ≠ deployments TransferManager Sample.runOne.1.1.
Proof.
  split; [refine (proj1 (bool_decide_eq_false _) _); by vm_compute |].
  split; [refine (proj1 (bool_decide_eq_true _) _); by vm_compute |].
  split; [by vm_compute |]. split; [by vm_compute |]. split; [by vm_compute |].
  split; [by vm_compute |]. split; [by vm_compute |].
  refine (proj1 (bool_decide_eq_false _) _). by vm_compute.
Qed.

(** C5, amended. On a network outside the allow-list the script logs the
    three lines of the warning and goes on, without aborting: what follows
    is the run of an allow-listed network, [staging] for test and [kovan]
    for any other, the one that takes the same turn at line 115, call for
    call with the same arguments and the same end, when the deploy manager
    hands both networks the same context. *)
Theorem C5_unlisted_network_proceeds W U SV network evs s' r :
  network ∉ ["kovan"; "kovan-fork"; "staging"; "prod"] →
  deploy W U SV network initial = (evs, s', r) →
  allowListed network ∈ ["kovan"; "kovan-fork"; "staging"; "prod"]
  ∧ ∃ o rest,
      evs = warnings network
            ++ {| event := ManagerSetup network; outcome := o |} :: rest
      ∧ ((∀ t, w_setup W t (allowListed network) = w_setup W t network) →
         deploy W U SV (allowListed network) initial
         = ({| event := ManagerSetup (allowListed network); outcome := o |} :: rest,
            s', r)).
Proof.
  intros Hout H. split; [apply allowListed_allowed |].
  unfold deploy in H.
  apply bind_inv in H as [(e1 & s1 & [] & t1 & H1 & H & ->) | (f & H1 & ->)];
    rewrite warnIfUnsupported_other in H1 by done; [| done].
  injection H1 as <- <-.
  rewrite (deployModules_twin W network (allowListed network)) in H
    by apply allowListed_same_turn.
  apply bind_inv in H as [(e2 & s2 & ctx & t2 & H2 & H & ->) | (f & H2 & ->)];
    apply (setup_twin W network (allowListed network)) in H2
      as (o & rest & -> & Htwin).
  - exists o, (rest ++ t2). split; [done |]. intros Heq.
    unfold deploy.
    eapply (bind_run_returns _ _ _ []);
      [apply warnIfUnsupported_allowed, allowListed_allowed |].
    eapply (bind_run_returns _ _ _ (_ :: _)); [apply Htwin, Heq | exact H].
  - exists o, rest. split; [done |]. intros Heq.
    unfold deploy.
    eapply (bind_run_returns _ _ _ []);
      [apply warnIfUnsupported_allowed, allowListed_allowed |].
    apply bind_run_throws. apply Htwin, Heq.
Qed.

(** Witness of C5: the sample run on the network test. *)
Lemma C5_witness :
  ∃ o rest,
    Sample.runTest.1.1
    = warnings "test" ++ {| event := ManagerSetup "test"; outcome := o |} :: rest
    ∧ deploy (Sample.world [Sample.v15] None) Sample.utilities Sample.semver
        "staging" initial
      = ({| event := ManagerSetup "staging"; outcome := o |} :: rest,
         Sample.runTest.1.2, Sample.runTest.2).
Proof.
  assert ("test" ∉ ["kovan"; "kovan-fork"; "staging"; "prod"]) as Hout.
  { refine (proj1 (bool_decide_eq_false _) _). vm_compute. reflexivity. }
  assert (deploy (Sample.world [Sample.v15] None) Sample.utilities Sample.semver
            "test" initial
          = (Sample.runTest.1.1, Sample.runTest.1.2, Sample.runTest.2)) as Hrun.
  { vm_compute. reflexivity. }
  destruct (C5_unlisted_network_proceeds _ _ _ _ _ _ _ Hout Hrun)
    as (_ & o & rest & Hevs & Htwin).
  exists o, rest. split; [exact Hevs |]. apply Htwin. intros t. reflexivity.
Defined.





(** C8. When the version store answers a request for [n] versions with at
    most [n] of them, then, the backward-compatibility window being 1, a
    run goes through at most one version and deploys at most one upgrader,
    the one of the branch for index 0: on a list of at most one version
    the loop is its first turn, and the branch for the later indices is
    never taken. *)
Theorem C8_single_version W U SV network evs s' r :
  deploy W U SV network initial = (evs, s', r) →
  (∀ n versions,
      {| event := LoadVersions n; outcome := Ok (AVersions versions) |} ∈ evs →
      (length versions ≤ n)%nat) →
  BACKWARD_COMPATIBILITY = 1%nat
  ∧ (∀ versions, versions ∈ loaded evs → (length versions ≤ 1)%nat)
  ∧ (length (upgraders evs) ≤ 1)%nat
  ∧ (∀ args,
        args ∈ upgraders evs →
        ∃ v0, loaded evs = [[v0]]
              ∧ args = upgraderArgs (prop (cfg_contracts (config s')) "ModuleRegistry")
                         (firstToAdd (newlyDeployed evs))
                         (firstToRemove MODULES_TO_DISABLE MODULES_TO_ENABLE v0))
  ∧ (∀ ctx m versions vars s,
        (length versions ≤ 1)%nat →
        upgraderLoop W U SV ctx m 0 versions vars s
        = match versions with
          | [] => ret vars s
          | v :: _ =>
              ('(toAdd, toRemove, vars') ← firstBranch W U SV v m vars;
               deployUpgrader W U ctx v toAdd toRemove vars' ;;
               ret vars') s
          end).
Proof.
  intros H Hbound. split; [done |].
  assert (∀ versions, versions ∈ loaded evs → (length versions ≤ 1)%nat) as Hone.
  { intros versions Hin.
    destruct (deploy_loaded _ _ _ _ _ _ _ _ H Hin) as [_ Hentry].
    apply (Hbound _ _ Hentry). }
  split; [exact Hone |].
  assert (upgraders evs = []
          ∨ ∃ v0, loaded evs = [[v0]]
                  ∧ upgraders evs =
                      [upgraderArgs (prop (cfg_contracts (config s')) "ModuleRegistry")
                         (firstToAdd (newlyDeployed evs))
                         (firstToRemove MODULES_TO_DISABLE MODULES_TO_ENABLE v0)])
    as Hcases.
  { apply deploy_cases in H
      as [(f & H & ->) | (head & s1 & ctx & m & tail & H1 & H2 & ->)].
    { pose proof (headCall_silent _ (prepare_head _ _ _ _ _ _ _ H)) as (_ & _ & G).
      by left. }
    apply prepare_returns in H1 as (L1 & _ & G1 & N1 & _).
    pose proof (finishCall_silent _ (finish_calls _ _ _ _ _ _ _ _ _ H2)) as (N2 & _).
    pose proof (finish_config _ _ _ _ _ _ _ _ _ H2) as Hcfg. unfold preserves in Hcfg.
    rewrite loaded_app, upgraders_app, newlyDeployed_app, L1, G1, N1, N2, app_nil_r in *.
    simpl in *.
    apply finish_one_version in H2 as [-> | (v0 & -> & ->)]; [by left | | done].
    right. exists v0. by rewrite Hcfg. }
  split; [| split; [| intros; by apply upgraderLoop_short]].
  - destruct Hcases as [-> | (v0 & _ & ->)]; simpl; lia.
  - intros args Hin. destruct Hcases as [Hnone | (v0 & L & G)].
    + rewrite Hnone in Hin. by apply elem_of_nil in Hin.
    + rewrite G in Hin. apply list_elem_of_singleton in Hin as ->. by exists v0.
Qed.

(** Witness of C8: the sample run with one published version. *)
Lemma C8_witness : (length (upgraders Sample.runOne.1.1) ≤ 1)%nat.
Proof.
  assert (deploy (Sample.world [Sample.v15] None) Sample.utilities
            Sample.semver "kovan" initial
          = (Sample.runOne.1.1, Sample.runOne.1.2, Sample.runOne.2)) as Hrun.
  { vm_compute. reflexivity. }
  refine (proj1 (proj2 (proj2 (C8_single_version _ _ _ _ _ _ _ Hrun _)))).
  intros n versions Hin.
  assert (forallb (λ e, match event e, outcome e with
                        | LoadVersions k, Ok (AVersions l) => (length l <=? k)%nat
                        | _, _ => true
                        end) Sample.runOne.1.1 = true) as Hall.
  { vm_compute. reflexivity. }
  rewrite forallb_forall in Hall. apply list_elem_of_In in Hin.
  apply Nat.leb_le. apply (Hall _ Hin).
Defined.

(** C9. The version of the new manifest comes from a comparison with the
    most recent historical version: when that version is lower than 1.6.0
    the manifest says 1.6.0, and else it says what [semver.inc] makes of
    that version for a patch release. *)
Theorem C9_version_string W U SV network evs s' v0 rest :
  deploy W U SV network initial = (evs, s', Returns tt) →
  loaded evs = [v0 :: rest] →
  ∃ manifest lower,
    uploaded evs = [manifest]
    ∧ semver_lt SV (version v0) "1.6.0" = Some lower
    ∧ manifest !! "version"
      = Some (if lower then VStr "1.6.0"
              else from_option VStr VNull (semver_inc SV (version v0) "patch")).
Proof.
  intros H Hloaded.
  destruct (deploy_observed _ _ _ _ _ _ H) as (versions & manifest & _ & P & _).
  assert (manifest ∈ uploaded evs) as Hin by (rewrite P; constructor).
  destruct (deploy_uploaded _ _ _ _ _ _ _ _ H Hin) as (_ & vs & Hvs & Hm).
  rewrite Hloaded in Hvs. injection Hvs as <-.
  destruct Hm as (lower & t & Hlt & ->).
  exists (firstManifest W U SV v0 (newlyDeployed evs) lower t), lower.
  split; [done |]. split; [done |]. apply firstManifest_version.
Qed.

(** Witness of C9: the sample run, whose most recent version is 1.5.0. *)
Lemma C9_witness :
  ∃ manifest,
    uploaded Sample.runOne.1.1 = [manifest]
    ∧ manifest !! "version" = Some (VStr "1.6.0").
Proof.
  assert (deploy (Sample.world [Sample.v15] None) Sample.utilities
            Sample.semver "kovan" initial
          = (Sample.runOne.1.1, Sample.runOne.1.2, Returns tt)) as Hrun.
  { vm_compute. reflexivity. }
  assert (loaded Sample.runOne.1.1 = [Sample.v15 :: []]) as Hloaded.
  { vm_compute. reflexivity. }
  destruct (C9_version_string _ _ _ _ _ _ _ _ Hrun Hloaded)
    as (manifest & lower & Hup & Hlt & Hversion).
  exists manifest. split; [exact Hup |]. rewrite Hversion.
  vm_compute in Hlt. injection Hlt as <-. reflexivity.
Defined.

(** C10. When the version store answers with no version, no upgrader is
    deployed and the upload is still made, right after the load, with the
    empty object: it has no version, createdAt, modules or fingerprint. *)
Theorem C10_nothing_loaded W U SV network evs s' r :
  deploy W U SV network initial = (evs, s', r) →
  loaded evs = [[]] →
  upgraders evs = []
  ∧ (∃ head o,
        evs = head ++ [ {| event := LoadVersions BACKWARD_COMPATIBILITY;
                           outcome := Ok (AVersions []) |};
                        {| event := UploadVersion ∅; outcome := o |} ]
        ∧ (r = Returns tt → o = Ok AUnit))
  ∧ ∃ manifest,
      uploaded evs = [manifest] ∧ manifest = ∅
      ∧ manifest !! "version" = None ∧ manifest !! "createdAt" = None
      ∧ manifest !! "modules" = None ∧ manifest !! "fingerprint" = None.
Proof.
  intros H Hloaded.
  apply deploy_cases in H
    as [(f & H & ->) | (head & s1 & ctx & m & tail & H1 & H2 & ->)].
  { pose proof (headCall_silent _ (prepare_head _ _ _ _ _ _ _ H)) as (L & _ & _).
    by rewrite L in Hloaded. }
  pose proof (headCall_silent _ (prepare_head _ _ _ _ _ _ _ H1)) as (L1 & P1 & G1).
  rewrite loaded_app, L1 in Hloaded. simpl in Hloaded.
  apply finish_nothing_loaded in H2 as (o & -> & Ho); [| done].
  rewrite upgraders_app, uploaded_app, G1, P1. simpl.
  split; [done |]. split; [by exists head, o |].
  exists ∅. by rewrite !lookup_empty.
Qed.

(** Witness of C10: the sample run with an empty version store. *)
Lemma C10_witness :
  upgraders Sample.runEmpty.1.1 = [] ∧ uploaded Sample.runEmpty.1.1 = [∅]
  ∧ Sample.runEmpty.2 = Returns tt.
Proof.
  assert (deploy (Sample.world [] None) Sample.utilities
            Sample.semver "kovan" initial
          = (Sample.runEmpty.1.1, Sample.runEmpty.1.2, Sample.runEmpty.2)) as Hrun.
  { vm_compute. reflexivity. }
  assert (loaded Sample.runEmpty.1.1 = [[]]) as Hloaded.
  { vm_compute. reflexivity. }
  destruct (C10_nothing_loaded _ _ _ _ _ _ _ Hrun Hloaded)
    as (Hnone & _ & manifest & Hup & -> & _).
  split; [exact Hnone |]. split; [exact Hup |]. vm_compute. reflexivity.
Defined.

(** ** The examples of the specification and of the patch release *)

Example spec_example_older_diff :
  olderToAdd Sample.specTarget Sample.specV0
  = [ {| name := "C"; address := "0x9" |}; {| name := "D"; address := "0x8" |} ]
  ∧ olderToRemove Sample.specTarget Sample.specV0
    = [ {| name := "C"; address := "0x3" |}; {| name := "E"; address := "0x5" |} ].
Proof. split; vm_compute; reflexivity. Qed.

Example patch_release :
  (λ manifest, manifest !! "version")
    <$> uploaded Sample.runPatch.1.1
  = [Some (VStr "1.6.3")].
Proof. vm_compute. reflexivity. Qed.

(** * More of the script *)

(** ** The module-set arithmetic, continued *)

Lemma filter_empty_iff {A} (P : A → Prop) `{∀ x, Decision (P x)} (l : list A) :
  filter P l = [] ↔ Forall (λ x, ¬ P x) l.
Proof.
  induction l as [| x l IH]; [by split; [constructor |] |].
  rewrite filter_cons. case_decide as HP.
  - split; [done |]. intros Hall. by inversion Hall.
  - rewrite IH. split; [by constructor |]. intros Hall. by inversion Hall.
Qed.

Lemma filter_everything {A} (P : A → Prop) `{∀ x, Decision (P x)} (l : list A) :
  Forall P l → filter P l = l.
Proof.
  induction 1 as [| x l HP _ IH]; [done |].
  by rewrite filter_cons_True, IH.
Qed.

Lemma filter_agree {A} (P Q : A → Prop) `{∀ x, Decision (P x), ∀ x, Decision (Q x)}
    (l : list A) :
  (∀ x, x ∈ l → P x ↔ Q x) → filter P l = filter Q l.
Proof.
  induction l as [| x l IH]; intros Hiff; [done |].
  rewrite !filter_cons.
  rewrite IH by (intros y Hy; apply Hiff; by constructor).
  destruct (decide (P x)) as [HP | HP], (decide (Q x)) as [HQ | HQ]; try done.
  - destruct HQ. apply Hiff; [constructor | done].
  - destruct HP. apply Hiff; [constructor | done].
Qed.

(** X1. Lines 169 and 174: at index 0 the modules of the most recent
    version are split in two by name: those to remove, whose names are on
    one of the two lists of the script, and those to keep, whose names are
    on neither; no module is lost or counted twice. *)
Theorem first_diff_partitions dis en v :
  firstToRemove dis en v ++ toKeep dis en v ≡ₚ modules v
  ∧ Forall (λ x, name x ∈ dis ++ en) (firstToRemove dis en v)
  ∧ Forall (λ x, name x ∉ dis ++ en) (toKeep dis en v)
  ∧ (length (firstToRemove dis en v) + length (toKeep dis en v))%nat
    = length (modules v).
Proof.
  assert (firstToRemove dis en v ++ toKeep dis en v ≡ₚ modules v) as Hperm.
  { unfold firstToRemove, toKeep. apply filter_app_complement. }
  split; [done |]. split; [| split].
  - apply Forall_forall. intros x Hx. unfold firstToRemove in Hx.
    by apply list_elem_of_filter in Hx as [Hx _].
  - apply Forall_forall. intros x Hx. unfold toKeep in Hx.
    by apply list_elem_of_filter in Hx as [Hx _].
  - by rewrite <- length_app, Hperm.
Qed.

(** X2. Lines 168-175: a module name on one of the two lists of the script
    is in the target of the most recent version only if a module of that
    name was deployed in this run; a disabled module never stays. *)
Theorem retired_names_only_return_redeployed dis en v ws n :
  n ∈ dis ++ en →
  Forall (λ w, contractName w ≠ n) ws →
  Forall (λ x, name x ≠ n) (modulesInNewVersion dis en v ws).
Proof.
  intros Hn Hws. apply Forall_forall. intros x Hx Hname.
  rewrite Forall_forall in Hws.
  apply elem_of_modulesInNewVersion in Hx as [(_ & Hdis & Hen) | Hx].
  - subst n. apply elem_of_app in Hn as [Hn | Hn]; done.
  - apply list_elem_of_fmap in Hx as (w & -> & Hw). by apply (Hws w).
Qed.

(** UniswapManager is disabled and not deployed by the script. *)
Lemma retired_names_only_return_redeployed_witness :
  Forall (λ x, name x ≠ "UniswapManager")
    (modulesInNewVersion MODULES_TO_DISABLE MODULES_TO_ENABLE Sample.v15
       (newlyDeployed Sample.runOne.1.1)).
Proof.
  apply (retired_names_only_return_redeployed MODULES_TO_DISABLE MODULES_TO_ENABLE
           Sample.v15 (newlyDeployed Sample.runOne.1.1) "UniswapManager").
  - refine (proj1 (bool_decide_eq_true _) _). vm_compute. reflexivity.
  - refine (proj1 (bool_decide_eq_true _) _). vm_compute. reflexivity.
Defined.

(** X3. Lines 168-185: the two branches of the loop agree on the most
    recent version. When no deployed module has the address of a module of
    that version, and no module to remove shares its address with one to
    keep, the diff by address of line 183 and 185 against the target gives
    the lists the branch for index 0 computes by name. *)
Theorem first_branch_agrees_with_older_branch dis en v ws :
  (∀ w, w ∈ ws → contractAddress w ∉ address <$> modules v) →
  (∀ x y, x ∈ firstToRemove dis en v → y ∈ toKeep dis en v → address x ≠ address y) →
  olderToAdd (modulesInNewVersion dis en v ws) v = firstToAdd ws
  ∧ olderToRemove (modulesInNewVersion dis en v ws) v = firstToRemove dis en v.
Proof.
  intros Hfresh Hapart. split.
  - unfold olderToAdd, modulesInNewVersion. rewrite filter_app.
    replace (filter _ (toKeep dis en v)) with (@nil ModuleDesc).
    2: { symmetry. apply filter_empty_iff. apply Forall_forall. intros x Hx Hout.
         apply Hout. apply list_elem_of_fmap_2.
         by apply elem_of_toKeep in Hx as [Hx _]. }
    simpl. apply filter_everything. apply Forall_forall. intros x Hx.
    unfold firstToAdd in Hx. apply list_elem_of_fmap in Hx as (w & -> & Hw).
    by apply Hfresh.
  - unfold olderToRemove, firstToRemove. apply filter_agree. intros x Hx.
    destruct (decide (name x ∈ moduleNamesToRemove dis en)) as [Hin | Hout].
    + split; [done |]. intros _ Haddr.
      apply list_elem_of_fmap in Haddr as (y & Hxy & Hy).
      apply elem_of_modulesInNewVersion in Hy as [(Hy & Hd & He) | Hy].
      * apply (Hapart x y); [| | done].
        -- unfold firstToRemove. by apply list_elem_of_filter.
        -- by apply elem_of_toKeep.
      * apply list_elem_of_fmap in Hy as (w & -> & Hw).
        apply (Hfresh w Hw). simpl in Hxy. rewrite <- Hxy.
        by apply list_elem_of_fmap_2.
    + split; [| done]. intros Haddr. destruct Haddr.
      apply list_elem_of_fmap_2. apply elem_of_modulesInNewVersion. left.
      unfold moduleNamesToRemove in Hout. apply not_elem_of_app in Hout as [? ?].
      done.
Qed.

(** The example of the specification. *)
Lemma first_branch_agrees_with_older_branch_witness :
  olderToAdd Sample.specTarget Sample.specV1 = firstToAdd Sample.specDeployed
  ∧ olderToRemove Sample.specTarget Sample.specV1 = firstToRemove ["B"] ["C"] Sample.specV1.
Proof.
  apply (first_branch_agrees_with_older_branch ["B"] ["C"] Sample.specV1
           Sample.specDeployed).
  - refine (proj1 (Forall_forall _ _) _).
    refine (proj1 (bool_decide_eq_true _) _). vm_compute. reflexivity.
  - intros x y Hx Hy. revert y Hy. refine (proj1 (Forall_forall _ _) _).
    revert x Hx. refine (proj1 (Forall_forall _ _) _).
    refine (proj1 (bool_decide_eq_true _) _). vm_compute. reflexivity.
Defined.

(** X4. Lines 183-185: the upgrader of an older version adds and removes
    nothing exactly when that version and the target list the same
    addresses. *)
Theorem older_diff_empty_iff target v :
  olderToAdd target v = [] ∧ olderToRemove target v = []
  ↔ (∀ a, a ∈ address <$> target ↔ a ∈ address <$> modules v).
Proof.
  unfold olderToAdd, olderToRemove. rewrite !filter_empty_iff, !Forall_forall. split.
  - intros [Hadd Hrem] a. split; intros Ha.
    + apply list_elem_of_fmap in Ha as (x & -> & Hx).
      destruct (decide (address x ∈ address <$> modules v)) as [? | Hn]; [done |].
      by destruct (Hadd x Hx).
    + apply list_elem_of_fmap in Ha as (x & -> & Hx).
      destruct (decide (address x ∈ address <$> target)) as [? | Hn]; [done |].
      by destruct (Hrem x Hx).
  - intros Hsame. split; intros x Hx Hout; apply Hout, Hsame;
      by apply list_elem_of_fmap_2.
Qed.

(** X5. Lines 183-185 and 194-195: what an older version's upgrader adds
    comes from the target and is at no address of that version, what it
    removes comes from that version and is at no address of the target, and
    no address is both added and removed. *)
Theorem older_diff_addresses target v :
  Forall (λ x, x ∈ target ∧ address x ∉ address <$> modules v) (olderToAdd target v)
  ∧ Forall (λ x, x ∈ modules v ∧ address x ∉ address <$> target)
           (olderToRemove target v)
  ∧ Forall (λ a, a ∉ address <$> olderToRemove target v)
           (address <$> olderToAdd target v).
Proof.
  split; [| split]; apply Forall_forall.
  - intros x Hx. by apply elem_of_olderToAdd.
  - intros x Hx. by apply elem_of_olderToRemove.
  - intros a Ha Hb.
    apply list_elem_of_fmap in Ha as (x & -> & Hx).
    apply list_elem_of_fmap in Hb as (y & Hxy & Hy).
    apply elem_of_olderToAdd in Hx as [_ Hx].
    apply elem_of_olderToRemove in Hy as [Hy _].
    apply Hx. rewrite Hxy. by apply list_elem_of_fmap_2.
Qed.

(** ** The revision hash *)

Lemma stripTrailingNewline_cons c s :
  s ≠ EmptyString → stripTrailingNewline (String c s) = String c (stripTrailingNewline s).
Proof. by destruct s. Qed.

(** X6. Line 134: [replace(/\n$/, ...)] takes one line feed off the end
    of what git printed and nothing else: a string that ends in a line feed
    loses that one, any other string is left as it is. *)
Theorem stripTrailingNewline_drops_one_line_feed s :
  stripTrailingNewline (s +:+ String "010" EmptyString) = s
  ∧ (stripTrailingNewline s = s
     ∨ s = stripTrailingNewline s +:+ String "010" EmptyString).
Proof.
  split.
  - induction s as [| c s IH]; [done |].
    change (String c s +:+ ?t) with (String c (s +:+ t)).
    rewrite stripTrailingNewline_cons by (by destruct s). by rewrite IH.
  - induction s as [| c s IH]; [by left |].
    destruct s as [| d s].
    + simpl. destruct (Ascii.eqb c "010") eqn:Hc; [| by left].
      right. by apply Ascii.eqb_eq in Hc as ->.
    + rewrite stripTrailingNewline_cons by done.
      destruct IH as [-> | IH]; [by left |]. right.
      change (String c ?u +:+ ?t) with (String c (u +:+ t)). by rewrite <- IH.
Qed.

(** ** What the new readings see of a run *)

Lemma finish_unobserved {X} (f : Entry → option X) log :
  (∀ e, finishCall (event e) = true → f e = None) →
  Forall (λ e, finishCall (event e) = true) log →
  omap f log = [].
Proof.
  intros Hf. induction 1 as [| e log He _ IH]; [done |].
  change (omap f (e :: log))
    with (match f e with Some y => y :: omap f log | None => omap f log end).
  by rewrite (Hf e He).
Qed.

Lemma tail_unobserved {X} (f : Entry → option X) head tail :
  (∀ e, finishCall (event e) = true → f e = None) →
  Forall (λ e, finishCall (event e) = true) tail →
  omap f (head ++ tail) = omap f head.
Proof.
  intros Hf Htail. by rewrite omap_app, (finish_unobserved f tail), app_nil_r.
Qed.

(** A reading that looks at no call of the second half. *)
Ltac unobserved :=
  let ev := fresh "ev" in
  let o := fresh "o" in
  let Hc := fresh "Hc" in
  intros [ev o] Hc; destruct ev as [| | | [] ? | | | | | | | | | | | |];
  try discriminate Hc; reflexivity.

Lemma consoleWarning_unobserved e :
  finishCall (event e) = true → consoleWarning e = None.
Proof. revert e. unobserved. Qed.

Lemma managerAnswer_unobserved e :
  finishCall (event e) = true → managerAnswer e = None.
Proof. revert e. unobserved. Qed.

Lemma transactionEntry_unobserved e :
  finishCall (event e) = true → transactionEntry e = None.
Proof. revert e. unobserved. Qed.

Lemma execOutput_unobserved e :
  finishCall (event e) = true → execOutput e = None.
Proof. revert e. unobserved. Qed.

Lemma abiBatch_unobserved e :
  finishCall (event e) = true → abiBatch e = None.
Proof. revert e. unobserved. Qed.

Lemma deploymentOf_unobserved a :
  a ≠ Upgrader → ∀ e, finishCall (event e) = true → deploymentOf a e = None.
Proof.
  intros Ha [ev o]. destruct ev; try done.
  unfold deploymentOf. simpl. destruct a0; try discriminate. intros _.
  by rewrite decide_False by done.
Qed.

Lemma deployedAs_unobserved a :
  a ≠ Upgrader → ∀ e, finishCall (event e) = true → deployedAs a e = None.
Proof.
  intros Ha [ev o]. destruct ev; try done.
  unfold deployedAs. simpl. destruct a0; try discriminate. intros _.
  destruct o as [[] |]; try done. by rewrite decide_False by done.
Qed.

Ltac unfold_script_in H :=
  unfold deploy, prepare, finish, warnIfUnsupported, setup, deployInfrastructure,
    deployModules, updateConfig, configuratorSave, uploadAbis, registerModules,
    deployUpgraders, uploadVersion, upgraderStep, firstBranch, olderBranch,
    deployUpgrader, wrapDeployedContract, deployContract, viewCall, sendTransaction,
    verboseWaitForTransaction, executeCall, newModuleWrappers in H;
  cbn [forEach] in H.

(** ** The first half, call by call *)

Section Head.
Context (W : World) (U : Utilities).

(** What the readings show of a run of the first half, however it ends,
    and what they show when it returns. *)
Lemma prepare_observed network s evs s' r :
  prepare W U network s = (evs, s', r) →
  consoleWarnings evs
  = (if decide (network ∈ ["kovan"; "kovan-fork"; "staging"; "prod"]) then []
     else [dashes;
           "WARNING: The MakerManagerV2 module is not fully functional on " +:+ network;
           dashes])
  ∧ handover (transactions evs)
  ∧ (deployments TransferManager evs = []
     ∨ ∃ mgr provider,
         managers evs = [mgr]
         ∧ deployments TransferManager evs
           = [[prop (cfg_contracts (configuration mgr)) "ModuleRegistry";
               prop (cfg_modules (configuration mgr)) "TransferStorage";
               prop (cfg_modules (configuration mgr)) "GuardianStorage";
               VStr provider;
               jsOr (prop (cfg_settings (configuration mgr)) "securityPeriod") (VNum 0);
               jsOr (prop (cfg_settings (configuration mgr)) "securityWindow") (VNum 0);
               jsOr (prop (cfg_settings (configuration mgr)) "defaultLimit")
                    (VStr "1000000000000000000");
               if decide (network ∈ ["test"; "staging"; "prod"])
               then prop (cfg_modules (configuration mgr)) "TransferManager"
               else VStr zeroAddress]])
  ∧ (deployments RecoveryManager evs = []
     ∨ ∃ mgr,
         managers evs = [mgr]
         ∧ deployments RecoveryManager evs
           = [[prop (cfg_contracts (configuration mgr)) "ModuleRegistry";
               prop (cfg_modules (configuration mgr)) "GuardianStorage";
               jsOr (prop (cfg_settings (configuration mgr)) "recoveryPeriod") (VNum 0);
               jsOr (prop (cfg_settings (configuration mgr)) "lockPeriod") (VNum 0);
               jsOr (prop (cfg_settings (configuration mgr)) "securityPeriod") (VNum 0);
               jsOr (prop (cfg_settings (configuration mgr)) "securityWindow") (VNum 0)]])
  ∧ (∀ ctx m,
        r = Returns (ctx, m) →
        ∃ registry out,
          deployed MakerRegistry evs = [registry]
          ∧ execOutputs evs = [out]
          ∧ deployed ApprovedTransfer evs = [ApprovedTransferWrapper m]
          ∧ deployed RecoveryManager evs = [RecoveryManagerWrapper m]
          ∧ deployed MakerV2Manager evs = [MakerV2ManagerWrapper m]
          ∧ deployed TransferManager evs = [TransferManagerWrapper m]
          ∧ deployed Upgrader evs = []
          ∧ newlyDeployed evs = newModuleWrappers m
          ∧ registrations evs = registrationOf U <$> newModuleWrappers m
          ∧ abiBatches evs
            = [((λ w, (w, "modules")) <$> newModuleWrappers m) ++ [(registry, "contracts")]]
          ∧ deploymentCount evs = 5%nat
          ∧ multisigCallCount evs = 4%nat
          ∧ configCalls evs
            = [UpdateModuleAddresses (newModuleAddresses m);
               UpdateInfrastructureAddresses
                 (<["MakerRegistry" := VStr (contractAddress registry)]> ∅);
               UpdateGitHash (stripTrailingNewline out);
               SaveConfig (config s')]).
Proof.
  intros H. pattern evs, s', r.
  match goal with |- ?P _ _ _ => set (Q := P) end.
  unfold_script_in H. run_inv H.
  all: subst Q; cbv beta.
  all: (split; [done |]).
  all: (split; [simpl; by repeat split |]).
  all: (split; [first [by left | right; by eexists _, _] |]).
  all: (split; [first [by left | right; by eexists] |]).
  all: intros ctx m Hr; try discriminate Hr.
  all: injection Hr as <- <-.
  all: eexists _, _.
  all: repeat (split; [reflexivity |]).
  all: reflexivity.
Qed.
End Head.

(** ** The log of the upgrader loop, continued *)

Section LoopLog.
Context (U : Utilities) (ctx : Context) (registry : Value).

Lemma registrations_app l k : registrations (l ++ k) = registrations l ++ registrations k.
Proof. apply omap_app. Qed.

Lemma deployed_app a l k : deployed a (l ++ k) = deployed a l ++ deployed a k.
Proof. apply omap_app. Qed.

Lemma deploymentCount_app l k :
  deploymentCount (l ++ k) = (deploymentCount l + deploymentCount k)%nat.
Proof. unfold deploymentCount. by rewrite filter_app, length_app. Qed.

Lemma multisigCallCount_app l k :
  multisigCallCount (l ++ k) = (multisigCallCount l + multisigCallCount k)%nat.
Proof. unfold multisigCallCount. by rewrite filter_app, length_app. Qed.

Lemma olderEntries_observed fp (f g : Version → list ModuleDesc) rest :
  ∀ ups,
    length ups = length rest →
    let log :=
      concat (zip_with (λ v up, upgraderEntries U ctx registry fp v (f v) (g v) up)
                rest ups) in
    deployed Upgrader log = ups
    ∧ registrations log
      = zip_with upgraderRegistration ups
          ((λ v, asciiToBytes32 U (fingerprint v +:+ "_" +:+ interpolate fp)) <$> rest)
    ∧ deploymentCount log = length rest
    ∧ multisigCallCount log = (2 * length rest)%nat.
Proof.
  induction rest as [| v rest IH]; intros [| up ups] Hlen; try done.
  cbv zeta. cbn [zip_with concat].
  destruct (IH ups) as (IH1 & IH2 & IH3 & IH4); [simpl in Hlen; lia |].
  rewrite deployed_app, registrations_app, deploymentCount_app, multisigCallCount_app,
    IH1, IH2, IH3, IH4.
  repeat split; simpl; lia.
Qed.

Lemma expectedUpgraderLog_observed ws versions ups :
  length ups = length versions →
  let log := expectedUpgraderLog U ctx registry ws versions ups in
  deployed Upgrader log = ups
  ∧ registrations log = zip_with upgraderRegistration ups (upgraderNames U ws versions)
  ∧ deploymentCount log = length versions
  ∧ multisigCallCount log = (2 * length versions)%nat.
Proof.
  unfold expectedUpgraderLog, upgraderNames.
  destruct versions as [| v0 rest], ups as [| up0 ups]; try done.
  intros Hlen. cbv zeta.
  edestruct (olderEntries_observed) as (IH1 & IH2 & IH3 & IH4);
    [simpl in Hlen; apply eq_add_S, Hlen |].
  rewrite deployed_app, registrations_app, deploymentCount_app, multisigCallCount_app,
    IH1, IH2, IH3, IH4.
  repeat split; simpl; lia.
Qed.
End LoopLog.

(** ** The whole run, continued *)

Section Whole.
Context (W : World) (U : Utilities) (SV : Semver).

(** Any run is a run of the first half followed by calls of the second. *)
Lemma deploy_head network evs s' r :
  deploy W U SV network initial = (evs, s', r) →
  ∃ head s1 r1 tail,
    prepare W U network initial = (head, s1, r1)
    ∧ evs = head ++ tail
    ∧ Forall (λ e, finishCall (event e) = true) tail.
Proof.
  intros H.
  apply deploy_cases in H
    as [(f & H & ->) | (head & s1 & ctx & m & tail & H1 & H2 & ->)].
  - exists evs, s', (Throws f), []. rewrite app_nil_r. by repeat split.
  - exists head, s1, (Returns (ctx, m)), tail.
    split; [done |]. split; [done |].
    apply (finish_calls _ _ _ _ _ _ _ _ _ H2).
Qed.

End Whole.

Section WholeRun.
Context (W : World) (U : Utilities) (SV : Semver).

(** What the readings show of a run that returns. *)
Lemma deploy_returns_observed network evs s' :
  deploy W U SV network initial = (evs, s', Returns tt) →
  ∃ head s1 ctx m tail versions ups,
    prepare W U network initial = (head, s1, Returns (ctx, m))
    ∧ evs = head ++ tail
    ∧ Forall (λ e, finishCall (event e) = true) tail
    ∧ loaded evs = [versions]
    ∧ newlyDeployed evs = newModuleWrappers m
    ∧ length ups = length versions
    ∧ deployed Upgrader tail = ups
    ∧ registrations tail
      = zip_with upgraderRegistration ups (upgraderNames U (newModuleWrappers m) versions)
    ∧ deploymentCount tail = length versions
    ∧ multisigCallCount tail = (2 * length versions)%nat
    ∧ config s' = config s1 ∧ persisted s' = persisted s1.
Proof.
  intros H.
  apply deploy_cases in H
    as [(f & _ & [=]) | (head & s1 & ctx & m & tail & H1 & H2 & ->)].
  pose proof (finish_calls _ _ _ _ _ _ _ _ _ H2) as Hcalls. unfold emitsOnly in Hcalls.
  pose proof (finish_config _ _ _ _ _ _ _ _ _ H2) as Hcfg. unfold preserves in Hcfg.
  pose proof (finish_persisted _ _ _ _ _ _ _ _ _ H2) as Hper. unfold preserves in Hper.
  destruct (prepare_returns _ _ _ _ _ _ _ H1) as (L1 & _ & _ & N1 & _).
  destruct (finishCall_silent _ Hcalls) as (N2 & _).
  exists head, s1, ctx, m, tail.
  apply finish_returns in H2 as (versions & ups & manifest & Hlen & Htail & _).
  exists versions, ups.
  split; [done |]. split; [done |]. split; [done |].
  rewrite loaded_app, newlyDeployed_app, L1, N1, N2, app_nil_r.
  pose proof (loopCall_silent _
    (expectedUpgraderLog_calls U ctx (prop (cfg_contracts (config s1)) "ModuleRegistry")
       (newModuleWrappers m) versions ups)) as (_ & L2 & _).
  destruct (expectedUpgraderLog_observed U ctx
              (prop (cfg_contracts (config s1)) "ModuleRegistry")
              (newModuleWrappers m) versions ups Hlen) as (D & R & C & X).
  rewrite Htail. change (?e :: ?l ++ ?k) with ([e] ++ l ++ k).
  rewrite !loaded_app, !deployed_app, !registrations_app,
    !deploymentCount_app, !multisigCallCount_app, L2, D, R, C, X.
  change (deploymentCount [_]) with 0%nat. change (multisigCallCount [_]) with 0%nat.
  repeat split; try done.
  all: simpl; rewrite ?app_nil_r; try done; lia.
Qed.
End WholeRun.

Lemma jsOr_zero a : truthy (jsOr a (VNum 0)) = true ∨ jsOr a (VNum 0) = VNum 0.
Proof. unfold jsOr. destruct (truthy a) eqn:Ha; [by left | by right]. Qed.

Lemma firstManifest_dom W U SV v ws lower t :
  dom (firstManifest W U SV v ws lower t)
  = (list_to_set ["version"; "createdAt"; "modules"; "fingerprint"] : gset string).
Proof. unfold firstManifest. rewrite !dom_insert_L, dom_empty_L. set_solver. Qed.

(** ** When semver rejects the version string *)

Section InvalidVersion.
Context (W : World) (U : Utilities) (SV : Semver).


End InvalidVersion.

(** ** Properties of every run *)

(** X7. Lines 25-29: the three lines of the warning go to [console.warn]
    exactly when the network is none of kovan, kovan-fork, staging and
    prod, whatever happens later in the run; nothing else is ever warned
    about. *)
Theorem warning_iff_unsupported_network W U SV network evs s' r :
  deploy W U SV network initial = (evs, s', r) →
  consoleWarnings evs
  = if decide (network ∈ ["kovan"; "kovan-fork"; "staging"; "prod"]) then []
    else [dashes;
          "WARNING: The MakerManagerV2 module is not fully functional on " +:+ network;
          dashes].
Proof.
  intros H. apply deploy_head in H as (head & s1 & r1 & tail & H1 & -> & Htail).
  unfold consoleWarnings.
  rewrite tail_unobserved by (done || apply consoleWarning_unobserved).
  apply (prepare_observed _ _ _ _ _ _ _ H1).
Qed.

(** The run on ropsten warns. *)
Lemma warning_iff_unsupported_network_witness :
  consoleWarnings MoreSamples.runRopsten.1.1
  = [dashes; "WARNING: The MakerManagerV2 module is not fully functional on ropsten";
     dashes].
Proof.
  assert (deploy (Sample.world [Sample.v15] None) Sample.utilities Sample.semver
            "ropsten" initial
          = (MoreSamples.runRopsten.1.1, MoreSamples.runRopsten.1.2,
             MoreSamples.runRopsten.2)) as Hrun.
  { vm_compute. reflexivity. }
  exact (warning_iff_unsupported_network _ _ _ _ _ _ _ Hrun).
Defined.



(** X9. Lines 80-89: the RecoveryManager is deployed at most once; its four
    periods are the settings of the configuration the deploy manager
    answered with, and a setting that is missing, zero or otherwise falsy
    is passed as the number 0, never as [undefined]. *)
Theorem recovery_manager_periods W U SV network evs s' r :
  deploy W U SV network initial = (evs, s', r) →
  deployments RecoveryManager evs = []
  ∨ ∃ mgr periods,
      managers evs = [mgr]
      ∧ deployments RecoveryManager evs
        = [prop (cfg_contracts (configuration mgr)) "ModuleRegistry"
           :: prop (cfg_modules (configuration mgr)) "GuardianStorage"
           :: periods]
      ∧ periods
        = (λ k, jsOr (prop (cfg_settings (configuration mgr)) k) (VNum 0))
            <$> ["recoveryPeriod"; "lockPeriod"; "securityPeriod"; "securityWindow"]
      ∧ Forall (λ v, truthy v = true ∨ v = VNum 0) periods.
Proof.
  intros H. apply deploy_head in H as (head & s1 & r1 & tail & H1 & -> & Htail).
  unfold deployments, managers.
  rewrite !tail_unobserved
    by (done || apply managerAnswer_unobserved || by apply deploymentOf_unobserved).
  destruct (prepare_observed _ _ _ _ _ _ _ H1) as (_ & _ & _ & [Hnone | Hone] & _);
    [by left |].
  destruct Hone as (mgr & Hmgr & Hargs). right. eexists mgr, _.
  split; [exact Hmgr |]. split; [exact Hargs |]. split; [reflexivity |].
  repeat first [apply Forall_nil_2 | apply Forall_cons_2]; apply jsOr_zero.
Qed.

(** The run on kovan deploys the RecoveryManager. *)
Lemma recovery_manager_periods_witness :
  length (deployments RecoveryManager Sample.runOne.1.1) = 1%nat.
Proof.
  assert (deploy (Sample.world [Sample.v15] None) Sample.utilities Sample.semver
            "kovan" initial
          = (Sample.runOne.1.1, Sample.runOne.1.2, Sample.runOne.2)) as Hrun.
  { vm_compute. reflexivity. }
  destruct (recovery_manager_periods _ _ _ _ _ _ _ Hrun)
    as [Hnone | (mgr & periods & _ & -> & _)]; [| reflexivity].
  exfalso. revert Hnone. vm_compute. discriminate.
Defined.

(** X10. Lines 62-65: in any run the transactions sent and waited for are,
    in this order and on one wrapper, [addCollateral], the wait for the
    transaction it answered with, [changeOwner], and the wait for the
    transaction that answered with; a later one is only reached when the
    earlier ones succeeded, and the script sends no other transaction. *)
Theorem ownership_handed_over_in_order W U SV network evs s' r :
  deploy W U SV network initial = (evs, s', r) →
  handover (transactions evs) ∧ (length (transactions evs) ≤ 4)%nat.
Proof.
  intros H. apply deploy_head in H as (head & s1 & r1 & tail & H1 & -> & Htail).
  unfold transactions.
  rewrite !tail_unobserved by (done || apply transactionEntry_unobserved).
  destruct (prepare_observed _ _ _ _ _ _ _ H1) as (_ & Hhand & _).
  split; [exact Hhand |]. unfold transactions in Hhand.
  destruct (omap transactionEntry head) as [| e1 [| e2 [| e3 [| e4 [| e5 l]]]]];
    simpl; try lia.
  exfalso. simpl in Hhand.
  destruct (event e1); try done. destruct Hhand as (_ & Hhand).
  destruct (event e2); try done. destruct Hhand as (_ & _ & Hhand).
  destruct (event e3); try done. by destruct Hhand as (_ & _ & _ & Hhand).
Qed.

(** The run in which the ninth call, the wait for [addCollateral], is
    rejected. *)
Lemma ownership_handed_over_in_order_witness :
  handover (transactions MoreSamples.runStalled.1.1)
  ∧ (length (transactions MoreSamples.runStalled.1.1) ≤ 4)%nat.
Proof.
  assert (deploy (Sample.world [Sample.v15] (Some 8%nat)) Sample.utilities Sample.semver
            "kovan" initial
          = (MoreSamples.runStalled.1.1, MoreSamples.runStalled.1.2,
             MoreSamples.runStalled.2)) as Hrun.
  { vm_compute. reflexivity. }
  exact (ownership_handed_over_in_order _ _ _ _ _ _ _ Hrun).
Defined.

(** X11. Lines 123-136: in a run that returns the configurator is called
    four times; the module addresses it is given are those the deployments
    of ApprovedTransfer, RecoveryManager, MakerV2Manager and TransferManager
    answered with, each under the name of its contract, the infrastructure
    address is that of the new MakerRegistry, the hash is what git printed
    less one trailing line feed, and the object saved is the one the run
    ends with. *)
Theorem configurator_receives_deployed_addresses W U SV network evs s' :
  deploy W U SV network initial = (evs, s', Returns tt) →
  ∃ approved recovery maker transfer registry out,
    deployed ApprovedTransfer evs = [approved]
    ∧ deployed RecoveryManager evs = [recovery]
    ∧ deployed MakerV2Manager evs = [maker]
    ∧ deployed TransferManager evs = [transfer]
    ∧ deployed MakerRegistry evs = [registry]
    ∧ execOutputs evs = [out]
    ∧ configCalls evs
      = [UpdateModuleAddresses
           (<["ApprovedTransfer" := VStr (contractAddress approved)]>
           (<["RecoveryManager" := VStr (contractAddress recovery)]>
           (<["MakerV2Manager" := VStr (contractAddress maker)]>
           (<["TransferManager" := VStr (contractAddress transfer)]> ∅))));
         UpdateInfrastructureAddresses
           (<["MakerRegistry" := VStr (contractAddress registry)]> ∅);
         UpdateGitHash (stripTrailingNewline out);
         SaveConfig (config s')]
    ∧ persisted s' = Some (config s').
Proof.
  intros H.
  destruct (deploy_returns_observed _ _ _ _ _ _ H)
    as (head & s1 & ctx & m & tail & versions & ups & H1 & -> & Htail & _ & _ & _ & _
        & _ & _ & _ & Hcfg & Hper).
  destruct (prepare_observed _ _ _ _ _ _ _ H1) as (_ & _ & _ & _ & Hok).
  destruct (Hok ctx m eq_refl)
    as (registry & out & D0 & E & D1 & D2 & D3 & D4 & _ & _ & _ & _ & _ & _ & C).
  destruct (prepare_returns _ _ _ _ _ _ _ H1) as (_ & _ & _ & _ & P).
  exists (ApprovedTransferWrapper m), (RecoveryManagerWrapper m),
    (MakerV2ManagerWrapper m), (TransferManagerWrapper m), registry, out.
  unfold deployed, execOutputs.
  rewrite !tail_unobserved
    by (done || apply execOutput_unobserved || by apply deployedAs_unobserved).
  rewrite configCalls_app.
  destruct (finishCall_silent _ Htail) as (_ & ->). rewrite app_nil_r.
  rewrite Hcfg, Hper. done.
Qed.

(** The run on kovan with one version in the store. *)
Lemma configurator_receives_deployed_addresses_witness :
  persisted Sample.runOne.1.2 = Some (config Sample.runOne.1.2).
Proof.
  assert (deploy (Sample.world [Sample.v15] None) Sample.utilities Sample.semver
            "kovan" initial
          = (Sample.runOne.1.1, Sample.runOne.1.2, Returns tt)) as Hrun.
  { vm_compute. reflexivity. }
  destruct (configurator_receives_deployed_addresses _ _ _ _ _ _ Hrun)
    as (? & ? & ? & ? & ? & ? & _ & _ & _ & _ & _ & _ & _ & Hsaved).
  exact Hsaved.
Defined.

(** X12. Lines 150-154 and 198-199: in a run that returns every contract
    the script deployed as a module is registered with the registry under
    the address its deployment answered with, in the order of deployment:
    the four new modules under the bytes32 of their contract names, then
    one upgrader per loaded version under the bytes32 of its name. *)
Theorem every_deployed_module_registered W U SV network evs s' :
  deploy W U SV network initial = (evs, s', Returns tt) →
  ∃ versions,
    loaded evs = [versions]
    ∧ length (deployed Upgrader evs) = length versions
    ∧ registrations evs
      = (registrationOf U <$> newlyDeployed evs)
        ++ zip_with upgraderRegistration (deployed Upgrader evs)
             (upgraderNames U (newlyDeployed evs) versions).
Proof.
  intros H.
  destruct (deploy_returns_observed _ _ _ _ _ _ H)
    as (head & s1 & ctx & m & tail & versions & ups & H1 & Hevs & Htail & L & N & Hlen
        & D & R & _).
  destruct (prepare_observed _ _ _ _ _ _ _ H1) as (_ & _ & _ & _ & Hok).
  destruct (Hok ctx m eq_refl)
    as (_ & _ & _ & _ & _ & _ & _ & _ & D0 & _ & R0 & _).
  exists versions. rewrite N. split; [exact L |].
  rewrite Hevs, deployed_app, registrations_app, D0, D, R0, R. done.
Qed.

(** The run with two versions in the store. *)
Lemma every_deployed_module_registered_witness :
  ∃ versions,
    loaded Sample.runTwo.1.1 = [versions]
    ∧ length (deployed Upgrader Sample.runTwo.1.1) = length versions
    ∧ registrations Sample.runTwo.1.1
      = (registrationOf Sample.utilities <$> newlyDeployed Sample.runTwo.1.1)
        ++ zip_with upgraderRegistration (deployed Upgrader Sample.runTwo.1.1)
             (upgraderNames Sample.utilities (newlyDeployed Sample.runTwo.1.1) versions).
Proof.
  assert (deploy (Sample.world [Sample.v15; Sample.v14] None) Sample.utilities
            Sample.semver "kovan" initial
          = (Sample.runTwo.1.1, Sample.runTwo.1.2, Returns tt)) as Hrun.
  { vm_compute. reflexivity. }
  exact (every_deployed_module_registered _ _ _ _ _ _ Hrun).
Defined.

(** X13. Lines 138-144: in a run that returns the ABIs are uploaded in one
    batch of five: the four wrappers the module deployments answered with,
    filed under [modules], and the wrapper of the new MakerRegistry, filed
    under [contracts]; no upgrader's ABI is uploaded. *)
Theorem abis_of_the_deployed_contracts W U SV network evs s' :
  deploy W U SV network initial = (evs, s', Returns tt) →
  ∃ registry,
    deployed MakerRegistry evs = [registry]
    ∧ abiBatches evs
      = [((λ w, (w, "modules")) <$> newlyDeployed evs) ++ [(registry, "contracts")]].
Proof.
  intros H.
  destruct (deploy_returns_observed _ _ _ _ _ _ H)
    as (head & s1 & ctx & m & tail & versions & ups & H1 & Hevs & Htail & _ & N & _).
  destruct (prepare_observed _ _ _ _ _ _ _ H1) as (_ & _ & _ & _ & Hok).
  destruct (Hok ctx m eq_refl)
    as (registry & out & D0 & _ & _ & _ & _ & _ & _ & _ & _ & A & _).
  exists registry. rewrite N, Hevs. unfold deployed, abiBatches.
  rewrite !tail_unobserved
    by (done || apply abiBatch_unobserved || by apply deployedAs_unobserved).
  done.
Qed.

(** The run on kovan with one version in the store. *)
Lemma abis_of_the_deployed_contracts_witness :
  ∃ registry,
    deployed MakerRegistry Sample.runOne.1.1 = [registry]
    ∧ abiBatches Sample.runOne.1.1
      = [((λ w, (w, "modules")) <$> newlyDeployed Sample.runOne.1.1)
         ++ [(registry, "contracts")]].
Proof.
  assert (deploy (Sample.world [Sample.v15] None) Sample.utilities Sample.semver
            "kovan" initial
          = (Sample.runOne.1.1, Sample.runOne.1.2, Returns tt)) as Hrun.
  { vm_compute. reflexivity. }
  exact (abis_of_the_deployed_contracts _ _ _ _ _ _ Hrun).
Defined.

(** X14. A run that returns with [n] versions loaded has deployed [5 + n]
    contracts (the MakerRegistry, four modules, one upgrader per version)
    and made [4 + 2 n] calls through the multisig (four [registerModule],
    then [registerModule] and [registerUpgrader] per upgrader). *)
Theorem deployments_and_multisig_calls_counted W U SV network evs s' :
  deploy W U SV network initial = (evs, s', Returns tt) →
  ∃ versions,
    loaded evs = [versions]
    ∧ deploymentCount evs = (5 + length versions)%nat
    ∧ multisigCallCount evs = (4 + 2 * length versions)%nat.
Proof.
  intros H.
  destruct (deploy_returns_observed _ _ _ _ _ _ H)
    as (head & s1 & ctx & m & tail & versions & ups & H1 & Hevs & Htail & L & _ & _
        & _ & _ & C & X & _).
  destruct (prepare_observed _ _ _ _ _ _ _ H1) as (_ & _ & _ & _ & Hok).
  destruct (Hok ctx m eq_refl)
    as (_ & _ & _ & _ & _ & _ & _ & _ & _ & _ & _ & _ & C0 & X0 & _).
  exists versions. split; [exact L |].
  by rewrite Hevs, deploymentCount_app, multisigCallCount_app, C0, X0, C, X.
Qed.

(** The run with two versions in the store. *)
Lemma deployments_and_multisig_calls_counted_witness :
  ∃ versions,
    loaded Sample.runTwo.1.1 = [versions]
    ∧ deploymentCount Sample.runTwo.1.1 = (5 + length versions)%nat
    ∧ multisigCallCount Sample.runTwo.1.1 = (4 + 2 * length versions)%nat.
Proof.
  assert (deploy (Sample.world [Sample.v15; Sample.v14] None) Sample.utilities
            Sample.semver "kovan" initial
          = (Sample.runTwo.1.1, Sample.runTwo.1.2, Returns tt)) as Hrun.
  { vm_compute. reflexivity. }
  exact (deployments_and_multisig_calls_counted _ _ _ _ _ _ Hrun).
Defined.

(** X15. Line 208: the version store is written at most once, by the last
    call of the run, and only when every loaded version has had its
    upgrader deployed and registered: whenever a manifest is handed to
    [upload], the log is the first half, the load, the complete log of the
    loop and that upload, whether the upload then succeeds or not. *)
Theorem version_uploaded_last W U SV network evs s' r manifest :
  deploy W U SV network initial = (evs, s', r) →
  manifest ∈ uploaded evs →
  ∃ head ctx versions ups o,
    evs = head
          ++ [{| event := LoadVersions BACKWARD_COMPATIBILITY;
                 outcome := Ok (AVersions versions) |}]
          ++ expectedUpgraderLog U ctx
               (prop (cfg_contracts (config s')) "ModuleRegistry")
               (newlyDeployed evs) versions ups
          ++ [{| event := UploadVersion manifest; outcome := o |}]
    ∧ uploaded head = []
    ∧ length ups = length versions
    ∧ length (newlyDeployed evs) = 4%nat
    ∧ (r = Returns tt → o = Ok AUnit).
Proof.
  intros H Hin.
  apply deploy_cases in H
    as [(f & H & ->) | (head & s1 & ctx & m & tail & H1 & H2 & ->)].
  { pose proof (headCall_silent _ (prepare_head _ _ _ _ _ _ _ H)) as (_ & P & _).
    rewrite P in Hin. by apply elem_of_nil in Hin. }
  pose proof (headCall_silent _ (prepare_head _ _ _ _ _ _ _ H1)) as (_ & P1 & _).
  destruct (prepare_returns _ _ _ _ _ _ _ H1) as (_ & _ & _ & N1 & _).
  pose proof (finish_calls _ _ _ _ _ _ _ _ _ H2) as Hcalls. unfold emitsOnly in Hcalls.
  destruct (finishCall_silent _ Hcalls) as (N2 & _).
  pose proof (finish_config _ _ _ _ _ _ _ _ _ H2) as Hcfg. unfold preserves in Hcfg.
  rewrite newlyDeployed_app, N1, N2, app_nil_r, Hcfg.
  rewrite uploaded_app, P1 in Hin. simpl in Hin.
  apply finish_run in H2
    as [(e & -> & _)
       | (versions & loopLog & s2 & s3 & r1 & rest & -> & Hcfg2 & Hloop & Hrest)].
  { by apply elem_of_nil in Hin. }
  pose proof (upgraderLoop_obeys W U SV (emitsOnly (λ ev, loopCall ev = true)) ctx m
                (upgraderStep_calls W U SV ctx m) _ _ _ _ _ _ _ Hloop) as Hloopcalls.
  unfold emitsOnly in Hloopcalls.
  destruct (loopCall_silent _ Hloopcalls) as (_ & _ & P2 & _).
  change (?e :: ?l ++ ?k) with ([e] ++ l ++ k) in Hin.
  rewrite !uploaded_app, P2 in Hin. simpl in Hin.
  destruct Hrest as [(-> & _) | (vars & o & -> & -> & Ho)].
  { by apply elem_of_nil in Hin. }
  apply list_elem_of_singleton in Hin as ->.
  apply upgraderLoop_returns in Hloop as (ups & Hlen & -> & _).
  exists head, ctx, versions, ups, o. rewrite Hcfg2. done.
Qed.

(** The run in which the upload itself, the last call, is rejected. *)
Lemma version_uploaded_last_witness :
  length (uploaded MoreSamples.runUnpublished.1.1) = 1%nat
  ∧ MoreSamples.runUnpublished.2 = Throws (Rejected "rejected").
Proof.
  assert (deploy (Sample.world [Sample.v15] (Some 27%nat)) Sample.utilities Sample.semver
            "kovan" initial
          = (MoreSamples.runUnpublished.1.1, MoreSamples.runUnpublished.1.2,
             MoreSamples.runUnpublished.2)) as Hrun.
  { vm_compute. reflexivity. }
  assert (hd ∅ (uploaded MoreSamples.runUnpublished.1.1)
          ∈ uploaded MoreSamples.runUnpublished.1.1) as Hin.
  { refine (proj1 (bool_decide_eq_true _) _). vm_compute. reflexivity. }
  destruct (version_uploaded_last _ _ _ _ _ _ _ _ Hrun Hin)
    as (head & ctx & versions & ups & o & _ & _ & _ & _ & _).
  split; vm_compute; reflexivity.
Defined.

(** X16. Lines 32 and 177-180: a manifest handed to the version store is
    never half filled: it is the empty object when the store answered with
    no version, and else has exactly the fields version, createdAt, modules
    and fingerprint. *)
Theorem manifest_empty_or_complete W U SV network evs s' r manifest :
  deploy W U SV network initial = (evs, s', r) →
  manifest ∈ uploaded evs →
  ∃ versions,
    loaded evs = [versions]
    ∧ dom manifest
      = if decide (versions = []) then (∅ : gset string)
        else list_to_set ["version"; "createdAt"; "modules"; "fingerprint"].
Proof.
  intros H Hin.
  destruct (deploy_uploaded _ _ _ _ _ _ _ _ H Hin) as (_ & versions & L & Hm).
  exists versions. split; [exact L |].
  destruct versions as [| v0 rest].
  - rewrite Hm. by rewrite dom_empty_L.
  - destruct Hm as (lower & t & _ & ->). rewrite decide_False by done.
    apply firstManifest_dom.
Qed.

(** The run on kovan with one version in the store. *)
Lemma manifest_empty_or_complete_witness :
  ∃ versions,
    loaded Sample.runOne.1.1 = [versions]
    ∧ dom (hd ∅ (uploaded Sample.runOne.1.1))
      = if decide (versions = []) then (∅ : gset string)
        else list_to_set ["version"; "createdAt"; "modules"; "fingerprint"].
Proof.
  assert (deploy (Sample.world [Sample.v15] None) Sample.utilities Sample.semver
            "kovan" initial
          = (Sample.runOne.1.1, Sample.runOne.1.2, Sample.runOne.2)) as Hrun.
  { vm_compute. reflexivity. }
  assert (hd ∅ (uploaded Sample.runOne.1.1) ∈ uploaded Sample.runOne.1.1) as Hin.
  { refine (proj1 (bool_decide_eq_true _) _). vm_compute. reflexivity. }
  exact (manifest_empty_or_complete _ _ _ _ _ _ _ _ Hrun Hin).
Defined.



(** ** Who is called on what *)

Lemma wrappedAs_unobserved a e : finishCall (event e) = true → wrappedAs a e = None.
Proof. revert e. unobserved. Qed.

Ltac registry_side :=
  unfold emitsOnly; repeat first [apply Forall_nil_2 | apply Forall_cons_2];
  simpl; first [exact I | by auto].

Section Wiring.
Context (W : World) (U : Utilities) (SV : Semver).

Lemma prepare_wired network s evs s' r :
  prepare W U network s = (evs, s', r) →
  Forall (registryCall (wrapped ModuleRegistry evs) (wrapped MultiSig evs)) evs
  ∧ Forall (onNewRegistry (deployed MakerRegistry evs)) evs
  ∧ (length (deployed MakerRegistry evs) ≤ 1)%nat
  ∧ (∀ ctx m,
        r = Returns (ctx, m) →
        wrapped ModuleRegistry evs = [ModuleRegistryWrapper ctx]
        ∧ wrapped MultiSig evs = [ex_multisig (multisigExecutor ctx)]).
Proof.
  intros H. pattern evs, s', r.
  match goal with |- ?P _ _ _ => set (Q := P) end.
  unfold_script_in H. run_inv H.
  all: subst Q; cbv beta.
  all: (split;
        [repeat first [apply Forall_nil_2 | apply Forall_cons_2];
         first [exact I | by (split; [| split; [| left]])] |]).
  all: (split;
        [repeat first [apply Forall_nil_2 | apply Forall_cons_2];
         first [exact I | reflexivity | by eexists] |]).
  all: (split; [simpl; lia |]).
  all: intros ctx m Hr; try discriminate Hr.
  all: injection Hr as <- <-.
  all: by split.
Qed.

Lemma finish_registryCalls ctx m :
  obeys (emitsOnly (registryCallBy (multisigExecutor ctx) (ModuleRegistryWrapper ctx)))
        (finish W U SV ctx m).
Proof.
  unfold finish, deployUpgraders, uploadVersion.
  repeat first
    [ apply upgraderLoop_obeys;
        [apply _ | intros; unfold_script; repeat obeys_step registry_side]
    | obeys_step registry_side ].
Qed.

Lemma finish_onNewRegistry registries tail :
  Forall (λ e, finishCall (event e) = true) tail →
  Forall (onNewRegistry registries) tail.
Proof.
  intros Htail. eapply Forall_impl; [exact Htail |].
  intros [ev o] Hc. unfold onNewRegistry. simpl in *.
  destruct ev as [| | | [] ? | | | | | | | | | | | |]; try discriminate Hc; exact I.
Qed.
End Wiring.

(** X18. Lines 49-51, 152 and 197-201: the multisig is only ever asked to
    call [registerModule] or [registerUpgrader], always on the wrapper that
    [wrapDeployedContract] answered with for the ModuleRegistry, through an
    executor on the wrapper it answered with for the MultiSig; each of the
    two is wrapped once. *)
Theorem multisig_only_registers W U SV network evs s' r :
  deploy W U SV network initial = (evs, s', r) →
  Forall (registryCall (wrapped ModuleRegistry evs) (wrapped MultiSig evs)) evs.
Proof.
  intros H.
  apply deploy_cases in H
    as [(f & H & ->) | (head & s1 & ctx & m & tail & H1 & H2 & ->)].
  { apply (prepare_wired _ _ _ _ _ _ _ H). }
  pose proof (finish_calls _ _ _ _ _ _ _ _ _ H2) as Hcalls. unfold emitsOnly in Hcalls.
  pose proof (finish_registryCalls _ _ _ _ _ _ _ _ _ H2) as Htail.
  unfold emitsOnly in Htail.
  destruct (prepare_wired _ _ _ _ _ _ _ H1) as (Hhead & _ & _ & Hok).
  destruct (Hok ctx m eq_refl) as (Hregistry & Hmultisig).
  unfold wrapped in *.
  rewrite !tail_unobserved by (done || apply wrappedAs_unobserved).
  apply Forall_app. split; [exact Hhead |].
  rewrite Hregistry, Hmultisig.
  eapply Forall_impl; [exact Htail |]. intros [ev o]. unfold registryCall, registryCallBy.
  simpl. destruct ev; try done. by intros (-> & -> & ?).
Qed.

(** The run with two versions in the store. *)
Lemma multisig_only_registers_witness :
  Forall (registryCall (wrapped ModuleRegistry Sample.runTwo.1.1)
            (wrapped MultiSig Sample.runTwo.1.1)) Sample.runTwo.1.1.
Proof.
  assert (deploy (Sample.world [Sample.v15; Sample.v14] None) Sample.utilities
            Sample.semver "kovan" initial
          = (Sample.runTwo.1.1, Sample.runTwo.1.2, Sample.runTwo.2)) as Hrun.
  { vm_compute. reflexivity. }
  exact (multisig_only_registers _ _ _ _ _ _ _ Hrun).
Defined.

(** X19. Lines 60-65 and 100: the MakerRegistry is deployed at most once,
    every transaction of the script is sent on, and waited for on, the
    wrapper that deployment answered with, and the MakerV2Manager is
    constructed with the address of that wrapper, not with the one of the
    configuration. *)
Theorem new_maker_registry_is_the_one_used W U SV network evs s' r :
  deploy W U SV network initial = (evs, s', r) →
  (length (deployed MakerRegistry evs) ≤ 1)%nat
  ∧ Forall (onNewRegistry (deployed MakerRegistry evs)) evs.
Proof.
  intros H. apply deploy_head in H as (head & s1 & r1 & tail & H1 & -> & Htail).
  unfold deployed.
  rewrite !tail_unobserved by (done || by apply deployedAs_unobserved).
  destruct (prepare_wired _ _ _ _ _ _ _ H1) as (_ & Hhead & Hone & _).
  split; [exact Hone |].
  apply Forall_app. split; [exact Hhead | by apply finish_onNewRegistry].
Qed.

(** The run on kovan with one version in the store. *)
Lemma new_maker_registry_is_the_one_used_witness :
  (length (deployed MakerRegistry Sample.runOne.1.1) ≤ 1)%nat
  ∧ Forall (onNewRegistry (deployed MakerRegistry Sample.runOne.1.1)) Sample.runOne.1.1.
Proof.
  assert (deploy (Sample.world [Sample.v15] None) Sample.utilities Sample.semver
            "kovan" initial
          = (Sample.runOne.1.1, Sample.runOne.1.2, Sample.runOne.2)) as Hrun.
  { vm_compute. reflexivity. }
  exact (new_maker_registry_is_the_one_used _ _ _ _ _ _ _ Hrun).
Defined.
